(** * Pull-request notifier scripts: a shallow embedding and its properties

    The repository ships three GitHub-script notifiers:

    - the protobuf review trigger (its guard is fail-closed),
    - the generated-protobuf-diff review trigger (its guard is fail-open),
    - [.github/scripts/bot-pr-missing-linked-issue.js] (LinkBot).

    The JavaScript is embedded as Rocq functions.  Strings are [string]s whose
    characters stand for code units in the range 0..255 (the few characters
    outside that range in LinkBot's fixed reminder text are spelled by their
    UTF-8 bytes; no statement depends on them); numbers that the scripts use
    as counts are [nat], issue numbers and HTTP statuses are [Z].  Effects
    (console, REST requests, exceptions) are threaded by a small
    state-and-exception monad. *)

From stdpp Require Import gmap strings list pretty.
From Stdlib Require Import Ascii ZArith Lia.

Set Warnings "-abstract-large-number,-clear-no-such-hyp".

Local Open Scope Z_scope.
Local Open Scope nat_scope.

(** ** JavaScript built-ins used by the scripts *)

Module JS.

Definition LF : ascii := "010"%char.
Definition CR : ascii := "013"%char.

Definition nl : string := String LF "".
Definition dq : string := String "034"%char "".
Definition cr : string := String CR "".

(** White space and line terminators stripped by [String.prototype.trim],
    restricted to code units below 256: TAB, LF, VT, FF, CR, SP, NBSP. *)
Definition is_white (c : ascii) : bool :=
  match c with
  | "009" | "010" | "011" | "012" | "013" | " " | "160" => true
  | _ => false
  end%char.

Fixpoint trimStart (s : string) : string :=
  match s with
  | "" => ""
  | String c s' => if is_white c then trimStart s' else s
  end.

Fixpoint trimEnd (s : string) : string :=
  match s with
  | "" => ""
  | String c s' =>
      match trimEnd s' with
      | "" => if is_white c then "" else String c ""
      | t => String c t
      end
  end.

(** [s.trim()] *)
Definition trim (s : string) : string := trimEnd (trimStart s).

(** [s.startsWith(p)] *)
Fixpoint startsWith (s p : string) : bool :=
  match p, s with
  | "", _ => true
  | String _ _, "" => false
  | String a p', String b s' => Ascii.eqb a b && startsWith s' p'
  end.

(** [s.includes(m)] *)
Fixpoint includes (s m : string) : bool :=
  startsWith s m ||
  match s with
  | "" => false
  | String _ s' => includes s' m
  end.

(** [s.endsWith(p)] *)
Fixpoint endsWith (s p : string) : bool :=
  String.eqb s p ||
  match s with
  | "" => false
  | String _ s' => endsWith s' p
  end.

(** [s.slice(start, stop)] for non-negative integer arguments. *)
Definition slice (s : string) (start stop : nat) : string :=
  String.substring start (stop - start) s.

Fixpoint lastIndexOf_from (i : Z) (s needle : string) (found : Z) : Z :=
  let found := if startsWith s needle then i else found in
  match s with
  | "" => found
  | String _ s' => lastIndexOf_from (i + 1)%Z s' needle found
  end.

(** [s.lastIndexOf(needle)]: the greatest index at which [needle] starts,
    or [-1]. *)
Definition lastIndexOf (s needle : string) : Z :=
  lastIndexOf_from 0%Z s needle (-1)%Z.

Definition lower_char (c : ascii) : ascii :=
  let n := Ascii.nat_of_ascii c in
  if ((65 <=? n) && (n <=? 90)) ||
     ((192 <=? n) && (n <=? 222) && negb (n =? 215))
  then Ascii.ascii_of_nat (n + 32) else c.

(** [s.toLowerCase()] on code units below 256. *)
Fixpoint toLowerCase (s : string) : string :=
  match s with
  | "" => ""
  | String c s' => String (lower_char c) (toLowerCase s')
  end.

(** [s.replace(/,/g, "\n")] *)
Fixpoint replace_commas (s : string) : string :=
  match s with
  | "" => ""
  | String c s' =>
      String (if Ascii.eqb c ","%char then LF else c) (replace_commas s')
  end.

Definition cons_head (c : ascii) (pieces : list string) : list string :=
  match pieces with
  | [] => [String c ""]
  | p :: ps => String c p :: ps
  end.

(** [s.split(/\r?\n/)]: a separator is a line feed together with the
    carriage return just before it, when there is one. *)
Fixpoint split_lines (s : string) : list string :=
  match s with
  | "" => [""]
  | String c rest =>
      if Ascii.eqb c LF then "" :: split_lines rest
      else
        match rest with
        | String d rest' =>
            if Ascii.eqb c CR && Ascii.eqb d LF
            then "" :: split_lines rest'
            else cons_head c (split_lines rest)
        | "" => cons_head c (split_lines rest)
        end
  end.

(** [xs.join(sep)] *)
Fixpoint join (sep : string) (xs : list string) : string :=
  match xs with
  | [] => ""
  | [x] => x
  | x :: rest => x +:+ sep +:+ join sep rest
  end.

Fixpoint digits (s : string) (acc : Z) : option Z :=
  match s with
  | "" => Some acc
  | String c s' =>
      match Ascii.is_nat c with
      | Some d => digits s' (10 * acc + Z.of_nat d)%Z
      | None => None
      end
  end.

(** [Number(v)] for an environment value [v] ([None] is [undefined]); the
    answer [None] is [NaN].  Only optionally signed decimal integers are
    read; a string in another numeric form reads as [NaN] here. *)
Definition Number (v : option string) : option Z :=
  match v with
  | None => None
  | Some s =>
      match trim s with
      | "" => Some 0%Z
      | String "-" (String _ _ as d) => Z.opp <$> digits d 0%Z
      | String "+" (String _ _ as d) => digits d 0%Z
      | t => digits t 0%Z
      end
  end.

(** Truthiness of a number ([None] is [undefined] or [NaN]). *)
Definition num_truthy (n : option Z) : bool :=
  match n with
  | Some z => negb (z =? 0)%Z
  | None => false
  end.

(** Truthiness of a string: only the empty string is falsy. *)
Definition truthy (s : string) : bool := negb (String.eqb s "").

(** [a || b] on strings. *)
Definition or_else (a : option string) (b : string) : string :=
  match a with
  | Some s => if truthy s then s else b
  | None => b
  end.

End JS.

(** ** Helpers that the two protobuf scripts define verbatim alike
    (lines 10-50 of both files) *)

Definition MAX_COMMENTS_TO_SCAN : nat := 500.
Definition MAX_FILES_TO_LIST : nat := 80.
Definition MAX_DIFF_CHARS : nat := 12000.

(** One turn of the [for ... of] loop of [parseUniqueLines]; the state is the
    pair of [seen] and [lines]. *)
Definition parseUniqueLines_step
    (acc : gset string * list string) (rawLine : string)
    : gset string * list string :=
  let '(seen, lines) := acc in
  let line := JS.trim rawLine in
  if negb (JS.truthy line) || bool_decide (line ∈ seen)
  then (seen, lines)
  else ({[ line ]} ∪ seen, lines ++ [line]).

Definition parseUniqueLines (text : string) : list string :=
  snd (foldl parseUniqueLines_step (∅, []) (JS.split_lines text)).

Record Truncation := { truncated : bool; text : string }.

Definition TRUNCATION_NOTE : string :=
  JS.nl +:+ "... (diff truncated in CI comment)".

Definition truncateDiff (diffText : string) (maxChars : nat) : Truncation :=
  if String.length diffText <=? maxChars
  then {| truncated := false; text := diffText |}
  else
    let slice := JS.slice diffText 0 maxChars in
    let lineBreakIndex := JS.lastIndexOf slice JS.nl in
    let safeSlice :=
      if (0 <? lineBreakIndex)%Z
      then JS.slice slice 0 (Z.to_nat lineBreakIndex)
      else slice in
    {| truncated := true; text := safeSlice +:+ TRUNCATION_NOTE |}.


(** ** The world outside the scripts: console, REST service, exceptions *)

Record Error := { message : string; status : option Z }.

Inductive completion (A : Type) : Type :=
| Normal (a : A)
| Thrown (e : Error).
Arguments Normal {A} a.
Arguments Thrown {A} e.

(** An issue comment as the REST API returns it; [body] is [None] when the
    field is missing or not a string. *)
Record Comment := { body : option string }.

Record User := { type : option string; login : option string }.
Record PullRequest := { number : Z; user : option User }.
Record Payload := { pull_request : option PullRequest }.
Record Repo := { owner : string; repo : string }.
Record Context := { context_repo : Repo; payload : option Payload }.

Record Issue := { issue_number : Z; state : string }.

(** What the GraphQL query for [closingIssuesReferences] answers:
    one of [repository], [pullRequest], [closingIssuesReferences] is null,
    or the [nodes] field (itself possibly null). *)
Inductive ClosingIssues :=
| NullOnPath
| Nodes (nodes : option (list Issue)).

Inductive Request :=
| ListComments (owner repo : string) (issue : Z)
               (per_page : option nat) (page : nat)
| CreateComment (owner repo : string) (issue : Z) (body : string)
| PullsGet (owner repo : string) (pull_number : Z)
| Graphql (owner repo : string) (prNumber : Z).

Inductive value :=
| VUndefined
| VBool (b : bool)
| VNum (n : Z)
| VStr (s : string).

Inductive stream := Out | Err.

Record LogLine :=
  { channel : stream; line : string; detail : list (string * value) }.

(** The mutable world: the comment thread of every issue (oldest first),
    what was written to the console, and the requests sent so far. *)
Record State := {
  threads : gmap (string * string * Z) (list Comment);
  console : list LogLine;
  requests : list Request;
}.

(** The behaviour of the service that the scripts cannot control: which
    requests fail, what the read-only queries answer, and the page size the
    server uses when a listing request names none (GitHub's REST API uses
    30). *)
Record GitHub := {
  list_error : Z → nat → option Error;
  create_error : Z → string → option Error;
  pulls_get : Z → completion PullRequest;
  graphql : Z → completion ClosingIssues;
  default_per_page : nat;
}.

Definition M (A : Type) : Type := State → completion A * State.

Definition ret {A} (a : A) : M A := λ st, (Normal a, st).

Definition bind {A B} (m : M A) (k : A → M B) : M B :=
  λ st,
    match m st with
    | (Normal a, st') => k a st'
    | (Thrown e, st') => (Thrown e, st')
    end.

Definition throw {A} (e : Error) : M A := λ st, (Thrown e, st).

(** [try { m } catch (error) { h error }] *)
Definition try_catch {A} (m : M A) (h : Error → M A) : M A :=
  λ st,
    match m st with
    | (Normal a, st') => (Normal a, st')
    | (Thrown e, st') => h e st'
    end.

Global Instance M_ret : MRet M := @ret.
Global Instance M_bind : MBind M := λ A B k m, bind m k.

Definition put_line (ch : stream) (l : string) (d : list (string * value))
    : M unit :=
  λ st,
    (Normal (),
     {| threads := threads st;
        console := console st ++ [{| channel := ch; line := l; detail := d |}];
        requests := requests st |}).

Definition console_log := put_line Out.
Definition console_error := put_line Err.

Definition send (r : Request) : State → State :=
  λ st,
    {| threads := threads st;
       console := console st;
       requests := requests st ++ [r] |}.

Definition comments_of (st : State) (o r : string) (issue : Z)
    : list Comment :=
  default [] (threads st !! (o, r, issue)).

Definition page_of (per_page page : nat) (l : list Comment) : list Comment :=
  take per_page (drop (page * per_page) l).

(** Number of pages the listing has: at least one, the last possibly short. *)
Definition page_count (per_page : nat) (l : list Comment) : nat :=
  Nat.max 1 (Nat.div (length l + per_page - 1) per_page).

(** [github.rest.issues.listComments]: one page of the thread. *)
Definition listComments (gh : GitHub) (o r : string) (issue : Z)
    (per_page : option nat) (page : nat) : M (list Comment) :=
  λ st,
    let st' := send (ListComments o r issue per_page page) st in
    match list_error gh issue page with
    | Some e => (Thrown e, st')
    | None =>
        (Normal (page_of (default (default_per_page gh) per_page) page
                         (comments_of st o r issue)), st')
    end.

(** [github.rest.issues.createComment]: appends to the thread unless the
    service rejects the request. *)
Definition createComment (gh : GitHub) (o r : string) (issue : Z)
    (b : string) : M unit :=
  λ st,
    let st' := send (CreateComment o r issue b) st in
    match create_error gh issue b with
    | Some e => (Thrown e, st')
    | None =>
        (Normal (),
         {| threads :=
              <[ (o, r, issue) :=
                   comments_of st o r issue ++ [{| body := Some b |}] ]>
                (threads st');
            console := console st';
            requests := requests st' |})
    end.

(** [github.rest.pulls.get] *)
Definition pullsGet (gh : GitHub) (o r : string) (n : Z) : M PullRequest :=
  λ st, (pulls_get gh n, send (PullsGet o r n) st).

(** [github.graphql] with the closing-issues query *)
Definition graphqlClosingIssues (gh : GitHub) (o r : string) (n : Z)
    : M ClosingIssues :=
  λ st, (graphql gh n, send (Graphql o r n) st).

Definition TypeError (m : string) : Error :=
  {| message := m; status := None |}.

Definition opt_num (o : option Z) : value :=
  match o with Some z => VNum z | None => VUndefined end.

(** ** The guard's loops, shared by the two protobuf scripts

    The scripts differ only in what the guard answers when the scan cap is
    reached and when the listing throws; [on_cap] is the former. *)

Inductive Scan :=
| Continue (scanned : nat)
| Return (answer : bool).

(** [typeof comment?.body === "string" && comment.body.includes(marker)] *)
Definition has_marker (marker : string) (comment : Comment) : bool :=
  match body comment with
  | Some b => JS.includes b marker
  | None => false
  end.

(** The inner loop [for (const comment of page)]. *)
Fixpoint scan_page (on_cap : bool) (marker : string)
    (page : list Comment) (scanned : nat) : Scan :=
  match page with
  | [] => Continue scanned
  | comment :: rest =>
      let scanned := scanned + 1 in
      if has_marker marker comment then Return true
      else if MAX_COMMENTS_TO_SCAN <=? scanned then Return on_cap
      else scan_page on_cap marker rest scanned
  end.

(** The outer loop [for await (const { data: page } of iterator)] over the
    pages still to be fetched; [None] when the loop runs to its end. *)
Fixpoint scan_pages (on_cap : bool) (gh : GitHub) (o r : string) (issue : Z)
    (marker : string) (pages : list nat) (scanned : nat) : M (option bool) :=
  match pages with
  | [] => mret None
  | p :: more =>
      page ← listComments gh o r issue (Some 100) p;
      match scan_page on_cap marker page scanned with
      | Return b => mret (Some b)
      | Continue scanned' =>
          scan_pages on_cap gh o r issue marker more scanned'
      end
  end.

(** [github.paginate.iterator(github.rest.issues.listComments, {per_page: 100})]
    consumed by the two loops. *)
Definition scan_thread (on_cap : bool) (gh : GitHub) (o r : string)
    (issue : Z) (marker : string) : M (option bool) :=
  λ st,
    scan_pages on_cap gh o r issue marker
      (seq 0 (page_count 100 (comments_of st o r issue))) 0 st.

(** What the [catch] of the guard writes to the console. *)
Definition guard_failure_entry (error : Error) (o r : string) (issue : Z)
    : LogLine :=
  {| channel := Out;
     line := "Failed while checking existing protobuf trigger comments:";
     detail :=
       [("message", VStr (message error)); ("status", opt_num (status error));
        ("owner", VStr o); ("repo", VStr r); ("issueNumber", VNum issue)] |}.

Definition guard_failure_line (error : Error) (o r : string) (issue : Z)
    : M unit :=
  let entry := guard_failure_entry error o r issue in
  put_line (channel entry) (line entry) (detail entry).

Definition readTextFileOrEmpty (fs : gmap string string) (filePath : string)
    : string :=
  if JS.truthy filePath then default "" (fs !! filePath) else "".

Definition code_bullet (filePath : string) : string :=
  "- `" +:+ filePath +:+ "`".

Definition hidden_line (hiddenCount : nat) : string :=
  if 0 <? hiddenCount
  then JS.nl +:+ "- ...and " +:+ pretty hiddenCount +:+ " more files"
  else "".

Definition scope_detail (scopeReason : string) : string :=
  if JS.truthy scopeReason
  then "- Scope detail: " +:+ scopeReason +:+ JS.nl
  else "".

Definition payload_number (context : Context) : option Z :=
  p ← payload context; pr ← pull_request p; Some (number pr).

Definition createTriggerComment (gh : GitHub) (o r : string)
    (issueNumber : Z) (b : string) : M unit :=
  createComment gh o r issueNumber b.

(** The final [try]/[catch] around [createTriggerComment] in both [main]s. *)
Definition post_or_skip (gh : GitHub) (o r : string) (prNumber : Z)
    (b : string) : M unit :=
  try_catch
    (createTriggerComment gh o r prNumber b;;
     console_log ("Posted protobuf-triggered CodeRabbit review comment on PR #"
                  +:+ pretty prNumber +:+ ".") [])
    (λ error,
       if bool_decide (status error = Some 403%Z)
          || bool_decide (status error = Some 404%Z)
       then
         console_log
           "Insufficient permissions to create PR comment in this context. Skipping."
           [("status", opt_num (status error)); ("owner", VStr o);
            ("repo", VStr r); ("prNumber", VNum prNumber)]
       else throw error).

Definition missing_pr_line : M unit :=
  console_log "No pull request found in payload. Skipping." [].

Definition already_posted_line (prNumber : Z) (headSha : string) : M unit :=
  console_log ("CodeRabbit protobuf trigger already posted for PR #"
               +:+ pretty prNumber +:+ " and head " +:+ headSha +:+ ".") [].

Definition dry_run_line (prNumber : Z) : M unit :=
  console_log
    ("[DRY RUN] Would create protobuf-triggered CodeRabbit comment for PR #"
     +:+ pretty prNumber +:+ ".") [].

(** [(process.env.DRY_RUN || "false").toLowerCase() === "true"] *)
Definition dry_run_flag (env : gmap string string) : bool :=
  String.eqb (JS.toLowerCase (JS.or_else (env !! "DRY_RUN") "false")) "true".

(** ** The protobuf review trigger (fail-closed guard) *)

Module ProtobufReview.

Definition MARKER_PREFIX : string :=
  "<!-- CodeRabbit Protobuf Review Trigger:".

(** [const marker = `${MARKER_PREFIX} ${headSha} -->`] *)
Definition marker (headSha : string) : string :=
  MARKER_PREFIX +:+ " " +:+ headSha +:+ " -->".

Definition hasExistingTriggerComment (gh : GitHub) (o r : string)
    (issueNumber : Z) (marker : string) : M bool :=
  found ← try_catch
    (scan_thread true gh o r issueNumber marker)
    (λ error,
       guard_failure_line error o r issueNumber;;
       mret (Some true));
  mret (default false found).

Definition default_checks : list string :=
  [ "buf lint";
    "buf breaking --against " +:+ JS.dq +:+ ".git#ref=origin/main" +:+ JS.dq;
    "buf build" ].

Definition buildCommentBody
    (marker baseSha headSha : string) (changedFiles : list string)
    (diffSnippet : string) (truncated : bool)
    (scopeMode scopeReason validationStatus : string)
    (validationChecks : list string) : string :=
  let fileLines := code_bullet <$> take MAX_FILES_TO_LIST changedFiles in
  let hiddenCount := length changedFiles - MAX_FILES_TO_LIST in
  let fileList :=
    if 0 <? length fileLines
    then JS.join JS.nl fileLines
    else "- (no .proto files changed in this PR)" in
  let hiddenLine := hidden_line hiddenCount in
  let truncatedSuffix := if truncated then " (truncated)" else "" in
  let diffSection :=
    if JS.truthy (JS.trim diffSnippet)
    then JS.nl +:+ "Protobuf contract diff excerpt" +:+ truncatedSuffix
         +:+ ":" +:+ JS.nl
         +:+ "```diff" +:+ JS.nl
         +:+ diffSnippet +:+ JS.nl
         +:+ "```" +:+ JS.nl
    else JS.nl +:+ "No .proto diff was detected for this head commit."
         +:+ JS.nl in
  let checks :=
    if 0 <? length validationChecks then validationChecks
    else default_checks in
  let validationSummary :=
    if String.eqb validationStatus "skipped"
    then "Protobuf contract validation was intentionally skipped for this pull request."
         +:+ JS.nl +:+ JS.nl
         +:+ "Reason:" +:+ JS.nl
         +:+ "- No protobuf-impacting files changed, so buf lint/breaking/build were not required."
    else "Protobuf contract validation passed for this pull request."
         +:+ JS.nl +:+ JS.nl
         +:+ "Validation checks passed:" +:+ JS.nl
         +:+ JS.join JS.nl (code_bullet <$> checks) in
  let reviewFocus :=
    if String.eqb validationStatus "skipped"
    then "Please perform a full review for this PR."
         +:+ JS.nl +:+ JS.nl
         +:+ "Protobuf contract gate was skipped intentionally for this head commit because no protobuf-impacting files changed."
         +:+ JS.nl
         +:+ "If you identify code changes that implicitly alter protobuf contracts, flag them explicitly."
    else "Please review this PR with a protobuf-first contract focus:"
         +:+ JS.nl
         +:+ "- PR changes must comply with protobuf compatibility rules."
         +:+ JS.nl
         +:+ "- Do not allow field renumbering/reuse, enum value reuse, or incompatible type changes."
         +:+ JS.nl
         +:+ "- Flag package/service renames unless accompanied by a migration strategy."
         +:+ JS.nl
         +:+ "- Verify generated protobuf artifacts and application logic align with updated message/service definitions." in
  marker +:+ JS.nl
  +:+ "@coderabbitai full review" +:+ JS.nl
  +:+ JS.nl
  +:+ validationSummary +:+ JS.nl
  +:+ JS.nl
  +:+ "- Base commit: `" +:+ baseSha +:+ "`" +:+ JS.nl
  +:+ "- Head commit: `" +:+ headSha +:+ "`" +:+ JS.nl
  +:+ "- Changed .proto files: " +:+ pretty (length changedFiles) +:+ JS.nl
  +:+ "- Scope mode: `" +:+ scopeMode +:+ "`" +:+ JS.nl
  +:+ scope_detail scopeReason +:+ JS.nl
  +:+ JS.nl
  +:+ reviewFocus +:+ JS.nl
  +:+ JS.nl
  +:+ "Changed .proto files:" +:+ JS.nl
  +:+ fileList +:+ hiddenLine +:+ JS.nl
  +:+ diffSection +:+ JS.nl.

Definition main (gh : GitHub) (context : Context)
    (env fs : gmap string string) : M unit :=
  let o := owner (context_repo context) in
  let r := repo (context_repo context) in
  let prNumber := payload_number context in
  if negb (JS.num_truthy prNumber) then missing_pr_line
  else
    let prNumber := default 0%Z prNumber in
    let baseSha := JS.or_else (env !! "BASE_SHA") "" in
    let headSha := JS.or_else (env !! "HEAD_SHA") "" in
    let diffPath := JS.or_else (env !! "PROTOBUF_DIFF_PATH") "" in
    let filesPath := JS.or_else (env !! "PROTOBUF_FILES_PATH") "" in
    let scopeMode := JS.or_else (env !! "PROTOBUF_SCOPE_MODE") "full" in
    let scopeReason := JS.or_else (env !! "PROTOBUF_SCOPE_REASON") "" in
    let validationStatus :=
      JS.or_else (env !! "PROTOBUF_VALIDATION_STATUS") "passed" in
    let validationChecks :=
      parseUniqueLines
        (JS.replace_commas
           (JS.or_else (env !! "PROTOBUF_VALIDATION_CHECKS") "")) in
    let isDryRun := dry_run_flag env in
    if negb (JS.truthy baseSha) || negb (JS.truthy headSha)
       || negb (JS.truthy filesPath)
    then
      console_log
        "Missing required environment values. Skipping protobuf review trigger."
        [("hasBaseSha", VBool (JS.truthy baseSha));
         ("hasHeadSha", VBool (JS.truthy headSha));
         ("hasFilesPath", VBool (JS.truthy filesPath))]
    else
      let fullDiff := readTextFileOrEmpty fs diffPath in
      let changedFiles :=
        parseUniqueLines (readTextFileOrEmpty fs filesPath) in
      let t := truncateDiff fullDiff MAX_DIFF_CHARS in
      let marker := marker headSha in
      posted ← hasExistingTriggerComment gh o r prNumber marker;
      if (posted : bool) then already_posted_line prNumber headSha
      else
        let b :=
          buildCommentBody marker baseSha headSha changedFiles
            (text t) (truncated t) scopeMode scopeReason
            validationStatus validationChecks in
        if isDryRun then dry_run_line prNumber
        else post_or_skip gh o r prNumber b.

End ProtobufReview.

(** ** The generated-protobuf-diff review trigger (fail-open guard) *)

Module GeneratedDiff.

Definition MARKER_PREFIX : string :=
  "<!-- CodeRabbit Protobuf Review Trigger:".

(** [const marker = `${MARKER_PREFIX} ${headSha} -->`] *)
Definition marker (headSha : string) : string :=
  MARKER_PREFIX +:+ " " +:+ headSha +:+ " -->".

Definition hasExistingTriggerComment (gh : GitHub) (o r : string)
    (issueNumber : Z) (marker : string) : M bool :=
  found ← try_catch
    (scan_thread false gh o r issueNumber marker)
    (λ error,
       guard_failure_line error o r issueNumber;;
       mret (Some false));
  mret (default false found).

Definition buildCommentBody
    (marker baseSha headSha : string) (changedFiles : list string)
    (diffSnippet : string) (truncated : bool)
    (scopeMode scopeReason : string) : string :=
  let fileLines := code_bullet <$> take MAX_FILES_TO_LIST changedFiles in
  let hiddenCount := length changedFiles - MAX_FILES_TO_LIST in
  let fileList :=
    if 0 <? length fileLines
    then JS.join JS.nl fileLines
    else "- (unable to compute changed generated files)" in
  let hiddenLine := hidden_line hiddenCount in
  let truncatedSuffix := if truncated then " (truncated)" else "" in
  marker +:+ JS.nl
  +:+ "@coderabbitai full review" +:+ JS.nl
  +:+ JS.nl
  +:+ "Generated protobuf build diff detected for this pull request."
  +:+ JS.nl
  +:+ JS.nl
  +:+ "- Base commit: `" +:+ baseSha +:+ "`" +:+ JS.nl
  +:+ "- Head commit: `" +:+ headSha +:+ "`" +:+ JS.nl
  +:+ "- Generated protobuf files changed: "
  +:+ pretty (length changedFiles) +:+ JS.nl
  +:+ "- Scope mode: `" +:+ scopeMode +:+ "`" +:+ JS.nl
  +:+ scope_detail scopeReason +:+ JS.nl
  +:+ JS.nl
  +:+ "Please review this PR with focus on whether code changes remain aligned with these generated protobuf artifacts."
  +:+ JS.nl
  +:+ JS.nl
  +:+ "Changed generated protobuf files:" +:+ JS.nl
  +:+ fileList +:+ hiddenLine +:+ JS.nl
  +:+ JS.nl
  +:+ "Generated protobuf diff excerpt" +:+ truncatedSuffix +:+ ":" +:+ JS.nl
  +:+ "```diff" +:+ JS.nl
  +:+ diffSnippet +:+ JS.nl
  +:+ "```" +:+ JS.nl.

Definition main (gh : GitHub) (context : Context)
    (env fs : gmap string string) : M unit :=
  let o := owner (context_repo context) in
  let r := repo (context_repo context) in
  let prNumber := payload_number context in
  if negb (JS.num_truthy prNumber) then missing_pr_line
  else
    let prNumber := default 0%Z prNumber in
    let baseSha := JS.or_else (env !! "BASE_SHA") "" in
    let headSha := JS.or_else (env !! "HEAD_SHA") "" in
    let diffPath := JS.or_else (env !! "PROTOBUF_DIFF_PATH") "" in
    let filesPath := JS.or_else (env !! "PROTOBUF_FILES_PATH") "" in
    let scopeMode := JS.or_else (env !! "PROTOBUF_SCOPE_MODE") "full" in
    let scopeReason := JS.or_else (env !! "PROTOBUF_SCOPE_REASON") "" in
    let isDryRun := dry_run_flag env in
    if negb (JS.truthy baseSha) || negb (JS.truthy headSha)
       || negb (JS.truthy diffPath) || negb (JS.truthy filesPath)
    then
      console_log
        "Missing required environment values. Skipping protobuf review trigger."
        [("hasBaseSha", VBool (JS.truthy baseSha));
         ("hasHeadSha", VBool (JS.truthy headSha));
         ("hasDiffPath", VBool (JS.truthy diffPath));
         ("hasFilesPath", VBool (JS.truthy filesPath))]
    else
      let fullDiff := readTextFileOrEmpty fs diffPath in
      if negb (JS.truthy (JS.trim fullDiff))
      then
        console_log
          "No generated protobuf diff found. Skipping CodeRabbit trigger." []
      else
        let changedFiles :=
          parseUniqueLines (readTextFileOrEmpty fs filesPath) in
        let t := truncateDiff fullDiff MAX_DIFF_CHARS in
        let marker := marker headSha in
        posted ← hasExistingTriggerComment gh o r prNumber marker;
        if (posted : bool) then already_posted_line prNumber headSha
        else
          let b :=
            buildCommentBody marker baseSha headSha changedFiles
              (text t) (truncated t) scopeMode scopeReason in
          if isDryRun then dry_run_line prNumber
          else post_or_skip gh o r prNumber b.

End GeneratedDiff.

(** ** LinkBot: [.github/scripts/bot-pr-missing-linked-issue.js] *)

Module LinkBot.

Definition LINKBOT_MISSING_ISSUE_MARKER : string :=
  "<!-- LinkBot Missing Issue -->".

Definition getLinkedOpenIssues (gh : GitHub) (o r : string) (prNumber : Z)
    : M (option (list Issue)) :=
  try_catch
    (result ← graphqlClosingIssues gh o r prNumber;
     match result with
     | NullOnPath =>
         throw (TypeError "Cannot read properties of null")
     | Nodes nodes =>
         let issues := default [] nodes in
         mret (Some (filter (λ issue, state issue = "OPEN") issues))
     end)
    (λ error,
       console_error
         ("Failed to fetch linked issues for PR #" +:+ pretty prNumber
          +:+ ":") [("message", VStr (message error))];;
       mret None).

(** [Number(process.env.PR_NUMBER) || context.payload.pull_request?.number];
    reading [pull_request] of a missing payload throws. *)
Definition resolvePrNumber (context : Context) (env : gmap string string)
    : M (option Z) :=
  let fromEnv := JS.Number (env !! "PR_NUMBER") in
  if JS.num_truthy fromEnv then mret fromEnv
  else
    match payload context with
    | None => throw (TypeError "Cannot read properties of undefined")
    | Some p => mret (number <$> pull_request p)
    end.

(** [authorType === "Bot" || authorLogin?.endsWith('[bot]')] *)
Definition isBotAuthor (authorType authorLogin : option string) : bool :=
  bool_decide (authorType = Some "Bot")
  || match authorLogin with
     | Some l => JS.endsWith l "[bot]"
     | None => false
     end.

(** [comments.data.some(comment => comment.body?.includes(MARKER))] *)
Definition alreadyCommentedMissingIssue (data : list Comment) : bool :=
  existsb (has_marker LINKBOT_MISSING_ISSUE_MARKER) data.

(** The single, unpaginated [github.rest.issues.listComments] call and the
    test on its [data]. *)
Definition checkAlreadyCommented (gh : GitHub) (o r : string) (n : Z)
    : M bool :=
  data ← listComments gh o r n None 0;
  mret (alreadyCommentedMissingIssue data).

Definition guide_link (o r doc : string) : string :=
  "[docs/sdk_developers/" +:+ doc +:+ "](https://github.com/" +:+ o +:+ "/"
  +:+ r +:+ "/blob/main/docs/sdk_developers/" +:+ doc +:+ ")".

Definition commentBody (safeAuthor o r : string) : string :=
  JS.join JS.nl
    [ LINKBOT_MISSING_ISSUE_MARKER +:+
      "Hi @" +:+ safeAuthor +:+ ", this is **LinkBot** 👋";
      "";
      "Linking pull requests to issues helps us significantly with reviewing pull requests and keeping the repository healthy.";
      "";
      "🚨 **This pull request does not have an issue linked.**";
      "If this PR remains unlinked, it will be automatically closed.";
      "";
      "Please link an issue using the following format:";
      "```";
      "Fixes #123";
      "```";
      "";
      "📖 Guide:";
      guide_link o r "how_to_link_issues.md";
      "";
      "If no issue exists yet, please create one:";
      guide_link o r "creating_issues.md";
      "";
      "Thanks!" ].

(** The [catch] of the script: three lines on the error channel, then the
    error is thrown again. *)
Definition on_error {A} (context : Context) (prNumber : option Z)
    (error : Error) : M A :=
  console_error "Error processing PR:" [("error", VStr (message error))];;
  console_error "PR number:" [("prNumber", opt_num prNumber)];;
  console_error "Repository:"
    [("repository",
      VStr (owner (context_repo context) +:+ "/"
            +:+ repo (context_repo context)))];;
  throw error.

(** The [try] block once [prNumber] has been assigned. *)
Definition process (gh : GitHub) (context : Context)
    (env : gmap string string) (prNumber : option Z) : M unit :=
  let o := owner (context_repo context) in
  let r := repo (context_repo context) in
  let isDryRun := bool_decide (env !! "DRY_RUN" = Some "true") in
  if negb (JS.num_truthy prNumber)
  then throw {| message := "PR number could not be determined";
                status := None |}
  else
    let n := default 0%Z prNumber in
    console_log ("Processing PR #" +:+ pretty n +:+ " (Dry run: "
                 +:+ (if isDryRun then "true" else "false") +:+ ")") [];;
    prData ←
      match payload context with
      | None => throw (TypeError "Cannot read properties of undefined")
      | Some p =>
          match pull_request p with
          | Some pr => mret pr
          | None => pullsGet gh o r n
          end
      end;
    let authorType := u ← user prData; type u in
    let authorLogin := u ← user prData; login u in
    if isBotAuthor authorType authorLogin
    then
      console_log ("Skipping comment: PR created by bot ("
                   +:+ default "undefined" authorLogin +:+ ")") []
    else
      already ← checkAlreadyCommented gh o r n;
      linkedIssues ← getLinkedOpenIssues gh o r n;
      match linkedIssues with
      | None =>
          console_log
            "Could not determine linked issues. Skipping comment for safety."
            []
      | Some linked =>
          if length linked =? 0
          then
            if (already : bool)
            then
              console_log
                "LinkBot missing-issue reminder already posted on this PR" []
            else
              let safeAuthor := default "there" authorLogin in
              let b := commentBody safeAuthor o r in
              if isDryRun
              then
                console_log "DRY RUN: Would post the following comment:" [];;
                console_log "---" [];;
                console_log b [];;
                console_log "---" []
              else
                createComment gh o r n b;;
                console_log "LinkBot comment posted successfully" []
          else console_log "PR has linked issue - no comment needed" []
      end.

(** [module.exports = async ({ github, context }) => ...] *)
Definition main (gh : GitHub) (context : Context)
    (env : gmap string string) : M unit :=
  prNumber ← try_catch (resolvePrNumber context env)
                       (on_error context None);
  try_catch (process gh context env prNumber)
            (on_error context prNumber).

End LinkBot.

(** ** Vocabulary of the statements below *)

(** The emitted excerpt stops right before a line feed of the input. *)
Definition ends_at_line_boundary (diffText : string) (t : Truncation) : Prop :=
  ∃ kept rest,
    diffText = kept +:+ JS.nl +:+ rest ∧ text t = kept +:+ TRUNCATION_NOTE.

(** The lines of [text]: split, trimmed, empty ones dropped, input order. *)
Definition trimmed_lines (text : string) : list string :=
  filter (λ l, l ≠ "") (JS.trim <$> JS.split_lines text).

(** First occurrences of a list, skipping what is in [seen]. *)
Fixpoint first_occurrences (seen : gset string) (l : list string)
    : list string :=
  match l with
  | [] => []
  | x :: l' =>
      if decide (x ∈ seen) then first_occurrences seen l'
      else x :: first_occurrences ({[ x ]} ∪ seen) l'
  end.

(** The three line-ending conventions: LF, CR LF and a lone CR. *)
Definition line_endings : list string := [JS.nl; JS.cr +:+ JS.nl; JS.cr].


(** The state after further requests have been sent and nothing else
    changed. *)
Definition with_requests (st : State) (rs : list Request) : State :=
  {| threads := threads st;
     console := console st;
     requests := requests st ++ rs |}.

(** The state after one more console line. *)
Definition with_line (st : State) (l : LogLine) : State :=
  {| threads := threads st;
     console := console st ++ [l];
     requests := requests st |}.

(** What fetching page [p] of the thread [l] yields. *)
Definition fetched (gh : GitHub) (issue : Z) (l : list Comment) (p : nat)
    : Error + list Comment :=
  match list_error gh issue p with
  | Some e => inl e
  | None => inr (page_of 100 p l)
  end.

(** The two loops of the guard run over what the fetches yield: the outcome
    and the number of fetches made. *)
Fixpoint scan_fetched (on_cap : bool) (marker : string)
    (rs : list (Error + list Comment)) (scanned : nat)
    : completion (option bool) * nat :=
  match rs with
  | [] => (Normal None, 0)
  | inl e :: _ => (Thrown e, 1)
  | inr page :: more =>
      match scan_page on_cap marker page scanned with
      | Return b => (Normal (Some b), 1)
      | Continue scanned' =>
          let '(res, k) := scan_fetched on_cap marker more scanned' in
          (res, S k)
      end
  end.

(** No page request for the issue fails. *)
Definition listing_succeeds (gh : GitHub) (issue : Z) : Prop :=
  ∀ p, list_error gh issue p = None.

(** The guard with its two fallback answers as parameters; each script's
    [hasExistingTriggerComment] is an instance (see [guard_instances]). *)
Definition guard_with (on_cap on_error : bool) (gh : GitHub) (o r : string)
    (issueNumber : Z) (marker : string) : M bool :=
  found ← try_catch
    (scan_thread on_cap gh o r issueNumber marker)
    (λ error,
       guard_failure_line error o r issueNumber;;
       mret (Some on_error));
  mret (default false found).

(** The answer of a guard whose listing succeeds. *)
Definition scan_answer (on_cap : bool) (marker : string) (l : list Comment)
    : bool :=
  if existsb (has_marker marker) (take MAX_COMMENTS_TO_SCAN l) then true
  else if MAX_COMMENTS_TO_SCAN <=? length l then on_cap
       else false.

(** The inputs the orchestrators resolve first. *)
Definition head_sha (env : gmap string string) : string :=
  JS.or_else (env !! "HEAD_SHA") "".

Definition pr_of (context : Context) : Z :=
  default 0%Z (payload_number context).

(** The PR number as LinkBot resolves it: the environment first, then the
    payload. *)
Definition linkbot_pr_number (context : Context) (env : gmap string string)
    : option Z :=
  let fromEnv := JS.Number (env !! "PR_NUMBER") in
  if JS.num_truthy fromEnv then fromEnv else payload_number context.


(** How a run of a protobuf script ends: it leaves early with one console
    line and no request, or it consults the guard and then either stops
    with one console line or goes on to post a body that starts with the
    marker. *)
Definition protobuf_run (on_cap on_error : bool) (m : string)
    (main : M unit) (gh : GitHub) (context : Context)
    (env : gmap string string) (st : State) : Prop :=
  let o := owner (context_repo context) in
  let r := repo (context_repo context) in
  let n := pr_of context in
  (∃ entry, main st = (Normal (), with_line st entry)) ∨
  (JS.num_truthy (payload_number context) = true ∧
   ∃ posted st1,
     guard_with on_cap on_error gh o r n m st = (Normal posted, st1) ∧
     (((posted = true ∨ dry_run_flag env = true) ∧
       ∃ entry, main st = (Normal (), with_line st1 entry)) ∨
      (posted = false ∧ dry_run_flag env = false ∧
       ∃ b, JS.startsWith b m = true ∧
            main st = post_or_skip gh o r n b st1))).

(** The requests sent between two states of one run. *)
Definition sent_since (st st' : State) : list Request :=
  drop (length (requests st)) (requests st').

Definition is_create (rq : Request) : bool :=
  match rq with
  | CreateComment _ _ _ _ => true
  | _ => false
  end.

(** A run that posted nothing and did not try to. *)
Definition quiet (st st' : State) : Prop :=
  threads st' = threads st ∧ existsb is_create (sent_since st st') = false.

(** How LinkBot's [try] block ends, as far as threads and requests go. *)
Definition linkbot_attempt (gh : GitHub) (context : Context)
    (pn : option Z) (res : completion unit) (st st' : State) : Prop :=
  let o := owner (context_repo context) in
  let r := repo (context_repo context) in
  ∃ n author pre,
    pn = Some n ∧
    list_error gh n 0 = None ∧
    LinkBot.alreadyCommentedMissingIssue
      (take (default_per_page gh) (comments_of st o r n)) = false ∧
    let b := LinkBot.commentBody author o r in
    sent_since st st' = pre ++ [CreateComment o r n b] ∧
    existsb is_create pre = false ∧
    match create_error gh n b with
    | Some e => res = Thrown e ∧ threads st' = threads st
    | None =>
        res = Normal () ∧
        threads st' =
          <[ (o, r, n) := comments_of st o r n ++ [{| body := Some b |}] ]>
            (threads st)
    end.

(** The PR data LinkBot works with: the payload's, else what
    [pulls.get] answers. *)
Definition linkbot_pr_data (gh : GitHub) (context : Context) (n : Z)
    : option PullRequest :=
  p ← payload context;
  match pull_request p with
  | Some pr => Some pr
  | None =>
      match pulls_get gh n with
      | Normal pr => Some pr
      | Thrown _ => None
      end
  end.

(** A body that, for every head revision, starts with one fixed prefix, a
    space, the head revision and the closing [-->]. *)
Definition carries_revision_marker (body_for : string → string) : Prop :=
  ∃ prefix, ∀ headSha,
    JS.startsWith (body_for headSha) (prefix +:+ " " +:+ headSha +:+ " -->")
    = true.

(** What the closing [catch] of the protobuf scripts writes when the
    rejection is a 403 or a 404. *)
Definition permission_entry (error : Error) (o r : string) (prNumber : Z)
    : LogLine :=
  {| channel := Out;
     line :=
       "Insufficient permissions to create PR comment in this context. Skipping.";
     detail :=
       [("status", opt_num (status error)); ("owner", VStr o);
        ("repo", VStr r); ("prNumber", VNum prNumber)] |}.

(** A run of a protobuf script that went as far as the creation request. *)
Definition protobuf_attempt (on_cap on_error : bool) (m : string)
    (gh : GitHub) (context : Context) (res : completion unit)
    (st st' : State) : Prop :=
  let o := owner (context_repo context) in
  let r := repo (context_repo context) in
  let n := pr_of context in
  ∃ stg b pre,
    guard_with on_cap on_error gh o r n m st = (Normal false, stg) ∧
    JS.startsWith b m = true ∧
    sent_since st st' = pre ++ [CreateComment o r n b] ∧
    existsb is_create pre = false ∧
    match create_error gh n b with
    | Some e =>
        threads st' = threads st ∧
        if bool_decide (status e = Some 403%Z)
           || bool_decide (status e = Some 404%Z)
        then res = Normal () ∧
             last (console st') = Some (permission_entry e o r n)
        else res = Thrown e
    | None =>
        res = Normal () ∧
        threads st' =
          <[ (o, r, n) := comments_of st o r n ++ [{| body := Some b |}] ]>
            (threads st)
    end.


(** ** Sample worlds *)

Definition not_found : Error :=
  {| message := "Not Found"; status := Some 404%Z |}.
Definition server_error : Error :=
  {| message := "Server Error"; status := Some 500%Z |}.

(** A service on which every request succeeds; a PR without linked issue;
    thirty comments per page when the request names no page size. *)
Definition quiet_service : GitHub :=
  {| list_error := λ _ _, None;
     create_error := λ _ _, None;
     pulls_get := λ _, Thrown not_found;
     graphql := λ _, Normal (Nodes (Some []));
     default_per_page := 30 |}.

Definition listing_down (e : Error) : GitHub :=
  {| list_error := λ _ _, Some e;
     create_error := λ _ _, None;
     pulls_get := λ _, Thrown not_found;
     graphql := λ _, Normal (Nodes (Some []));
     default_per_page := 30 |}.

Definition creation_rejected (e : Error) : GitHub :=
  {| list_error := λ _ _, None;
     create_error := λ _ _, Some e;
     pulls_get := λ _, Thrown not_found;
     graphql := λ _, Normal (Nodes (Some []));
     default_per_page := 30 |}.

Definition sample_repo : Repo := {| owner := "hiero"; repo := "sdk" |}.

Definition pr_by (t l : string) : PullRequest :=
  {| number := 7%Z; user := Some {| type := Some t; login := Some l |} |}.

Definition context_of (pr : option PullRequest) : Context :=
  {| context_repo := sample_repo;
     payload := Some {| pull_request := pr |} |}.

Definition sample_context : Context := context_of (Some (pr_by "User" "alice")).

Definition sample_env : gmap string string :=
  {[ "BASE_SHA" := "b1"; "HEAD_SHA" := "h1";
     "PROTOBUF_FILES_PATH" := "files.txt";
     "PROTOBUF_DIFF_PATH" := "proto.diff" ]}.

Definition sample_fs : gmap string string :=
  {[ "files.txt" := "a.proto" +:+ JS.nl +:+ "b.proto";
     "proto.diff" := "+message A {}" ]}.

Definition chatter (k : nat) : list Comment :=
  replicate k {| body := Some "LGTM" |}.

Definition state_with (l : list Comment) : State :=
  {| threads := {[ ("hiero", "sdk", 7%Z) := l ]};
     console := [];
     requests := [] |}.

(** ** Vocabulary of the further properties *)

(** An entry as [parseUniqueLines] emits them: non-empty, free of
    surrounding white space and of line feeds. *)
Definition clean_entry (l : string) : Prop :=
  l ≠ "" ∧ JS.trim l = l ∧ JS.includes l JS.nl = false.

(** An environment variable that is missing or empty, and one that holds a
    non-empty value. *)
Definition env_unset (env : gmap string string) (key : string) : Prop :=
  env !! key = None ∨ env !! key = Some "".

Definition env_set (env : gmap string string) (key : string) : Prop :=
  ∃ v, env !! key = Some v ∧ v ≠ "".

(** The diff file as the scripts read it. *)
Definition diff_of (env fs : gmap string string) : string :=
  readTextFileOrEmpty fs (JS.or_else (env !! "PROTOBUF_DIFF_PATH") "").

(** The listing requests for the first [k] pages of a thread. *)
Definition page_requests (o r : string) (n : Z) (k : nat) : list Request :=
  ListComments o r n (Some 100) <$> seq 0 k.

Definition missing_env_line : string :=
  "Missing required environment values. Skipping protobuf review trigger.".

(** The environment holds what the review trigger requires; the
    generated-diff trigger requires the diff path too. *)
Definition review_env_ready (env : gmap string string) : Prop :=
  env_set env "BASE_SHA" ∧ env_set env "HEAD_SHA"
  ∧ env_set env "PROTOBUF_FILES_PATH".

Definition generated_env_ready (env : gmap string string) : Prop :=
  review_env_ready env ∧ env_set env "PROTOBUF_DIFF_PATH".

(** *** LinkBot *)

(** The open issues among what the GraphQL query answers; [None] when the
    query throws or a field on the path is null. *)
Definition linked_open (answer : completion ClosingIssues)
    : option (list Issue) :=
  match answer with
  | Normal (Nodes nodes) =>
      Some (filter (λ issue, state issue = "OPEN") (default [] nodes))
  | Normal NullOnPath => None
  | Thrown _ => None
  end.

(** The request LinkBot sends for the PR data: none when the payload holds
    the PR. *)
Definition linkbot_fetch (context : Context) (n : Z) : list Request :=
  match payload context with
  | Some p =>
      match pull_request p with
      | Some _ => []
      | None =>
          [PullsGet (owner (context_repo context))
             (repo (context_repo context)) n]
      end
  | None => []
  end.

(** A run of LinkBot that gets as far as the author check and passes it:
    PR number [n], PR data [pr], author not a bot. *)
Definition linkbot_human (gh : GitHub) (context : Context)
    (env : gmap string string) (n : Z) (pr : PullRequest) : Prop :=
  linkbot_pr_number context env = Some n ∧ n ≠ 0%Z ∧
  linkbot_pr_data gh context n = Some pr ∧
  LinkBot.isBotAuthor (user pr ≫= λ u, type u) (user pr ≫= λ u, login u)
  = false.

(** What [process] does after the author check (the same text as there). *)
Definition linkbot_after_author (gh : GitHub) (context : Context)
    (env : gmap string string) (n : Z) (authorLogin : option string)
    : M unit :=
  let o := owner (context_repo context) in
  let r := repo (context_repo context) in
  let isDryRun := bool_decide (env !! "DRY_RUN" = Some "true") in
  already ← LinkBot.checkAlreadyCommented gh o r n;
  linkedIssues ← LinkBot.getLinkedOpenIssues gh o r n;
  match linkedIssues with
  | None =>
      console_log
        "Could not determine linked issues. Skipping comment for safety."
        []
  | Some linked =>
      if length linked =? 0
      then
        if (already : bool)
        then
          console_log
            "LinkBot missing-issue reminder already posted on this PR" []
        else
          let safeAuthor := default "there" authorLogin in
          let b := LinkBot.commentBody safeAuthor o r in
          if isDryRun
          then
            console_log "DRY RUN: Would post the following comment:" [];;
            console_log "---" [];;
            console_log b [];;
            console_log "---" []
          else
            createComment gh o r n b;;
            console_log "LinkBot comment posted successfully" []
      else console_log "PR has linked issue - no comment needed" []
  end.

(** The author LinkBot greets. *)
Definition linkbot_author (pr : PullRequest) : string :=
  default "there" (user pr ≫= λ u, login u).

(** * Properties *)

(** ** Strings *)

Lemma app_cons (c : ascii) (s t : string) :
  String c s +:+ t = String c (s +:+ t).
Proof. reflexivity. Qed.

Lemma app_empty_l (s : string) : "" +:+ s = s.
Proof. reflexivity. Qed.

Lemma app_empty_r (s : string) : s +:+ "" = s.
Proof. induction s as [|c s IH]; [done|]. by rewrite app_cons, IH. Qed.

Lemma app_assoc_str (s t u : string) : (s +:+ t) +:+ u = s +:+ t +:+ u.
Proof. induction s as [|c s IH]; [done|]. by rewrite !app_cons, IH. Qed.

Lemma length_app_str (s t : string) :
  String.length (s +:+ t) = String.length s + String.length t.
Proof. induction s as [|c s IH]; [done|]. rewrite app_cons. simpl. by rewrite IH. Qed.

Lemma ascii_eqb_refl (c : ascii) : Ascii.eqb c c = true.
Proof. by apply Ascii.eqb_eq. Qed.

Lemma startsWith_app (p s : string) : JS.startsWith (p +:+ s) p = true.
Proof.
  induction p as [|c p IH]; [by destruct s|].
  rewrite app_cons. simpl. by rewrite ascii_eqb_refl, IH.
Qed.

Lemma startsWith_spec (s p : string) :
  JS.startsWith s p = true ↔ ∃ rest, s = p +:+ rest.
Proof.
  split.
  - revert s. induction p as [|c p IH]; intros s H.
    + by exists s.
    + destruct s as [|b s]; [done|]. simpl in H.
      apply andb_true_iff in H as [Hc Hs]. apply Ascii.eqb_eq in Hc as ->.
      destruct (IH _ Hs) as [rest ->]. by exists rest.
  - intros [rest ->]. apply startsWith_app.
Qed.

Lemma includes_of_startsWith (s m : string) :
  JS.startsWith s m = true → JS.includes s m = true.
Proof. intros H. destruct s; cbn [JS.includes]; by rewrite H. Qed.

Lemma includes_app (a m b : string) : JS.includes (a +:+ m +:+ b) m = true.
Proof.
  induction a as [|c a IH].
  - rewrite app_empty_l. apply includes_of_startsWith, startsWith_app.
  - rewrite app_cons. cbn [JS.includes]. rewrite IH. apply orb_true_r.
Qed.

Lemma includes_spec (s m : string) :
  JS.includes s m = true ↔ ∃ a b, s = a +:+ m +:+ b.
Proof.
  split.
  - induction s as [|c s IH]; cbn [JS.includes]; intros H.
    + rewrite orb_false_r in H. apply startsWith_spec in H as [b ->].
      by exists "", b.
    + apply orb_true_iff in H as [H|H].
      * apply startsWith_spec in H as [b ->]. by exists "", b.
      * destruct (IH H) as (a & b & ->). by exists (String c a), b.
  - intros (a & b & ->). apply includes_app.
Qed.

Lemma endsWith_app (a p : string) : JS.endsWith (a +:+ p) p = true.
Proof.
  induction a as [|c a IH].
  - rewrite app_empty_l. destruct p; simpl; by rewrite ?String.eqb_refl, ?ascii_eqb_refl.
  - rewrite app_cons. simpl. rewrite IH. apply orb_true_r.
Qed.

Lemma get_slice (s : string) (n i : nat) :
  i < n → String.get i (JS.slice s 0 n) = String.get i s.
Proof.
  unfold JS.slice. rewrite Nat.sub_0_r. revert n i.
  induction s as [|c s IH]; intros [|n] [|i] H; simpl; try done; try lia.
  apply IH. lia.
Qed.

Lemma get_slice_None (s : string) (n i : nat) :
  n ≤ i → String.get i (JS.slice s 0 n) = None.
Proof.
  unfold JS.slice. rewrite Nat.sub_0_r. revert n i.
  induction s as [|c s IH]; intros [|n] [|i] H; simpl; try done; try lia.
  apply IH. lia.
Qed.

Lemma length_slice (s : string) (n : nat) :
  String.length (JS.slice s 0 n) = Nat.min n (String.length s).
Proof.
  unfold JS.slice. rewrite Nat.sub_0_r. revert n.
  induction s as [|c s IH]; intros [|n]; simpl; try done. by rewrite IH.
Qed.

Lemma slice_slice (s : string) (n m : nat) :
  m ≤ n → JS.slice (JS.slice s 0 n) 0 m = JS.slice s 0 m.
Proof.
  unfold JS.slice. rewrite !Nat.sub_0_r. revert n m.
  induction s as [|c s IH]; intros [|n] [|m] H; simpl; try done; try lia.
  f_equal. apply IH. lia.
Qed.

Lemma slice_is_prefix (s : string) (n : nat) :
  ∃ rest, s = JS.slice s 0 n +:+ rest.
Proof.
  unfold JS.slice. rewrite Nat.sub_0_r. revert n.
  induction s as [|c s IH]; intros [|n]; simpl.
  - by exists "".
  - by exists "".
  - by exists (String c s).
  - destruct (IH n) as [rest Hrest]. exists rest.
    rewrite app_cons. by rewrite <- Hrest.
Qed.

(** Cutting a string just before the character at index [i]. *)
Lemma split_at_get (s : string) (i : nat) (c : ascii) :
  String.get i s = Some c →
  ∃ rest, s = JS.slice s 0 i +:+ String c rest.
Proof.
  unfold JS.slice. rewrite Nat.sub_0_r. revert i.
  induction s as [|b s IH]; intros [|i] H; simpl in *; try done.
  - injection H as ->. by exists s.
  - destruct (IH i H) as [rest Hrest]. exists rest.
    rewrite app_cons. by rewrite <- Hrest.
Qed.

Lemma startsWith_nl (s : string) :
  JS.startsWith s JS.nl = true ↔ String.get 0 s = Some JS.LF.
Proof.
  destruct s as [|b s]; unfold JS.nl; cbn [JS.startsWith String.get]; [done|].
  assert (JS.startsWith s "" = true) as -> by by destruct s.
  rewrite andb_true_r, Ascii.eqb_eq. split; [by intros <-|by intros [= ->]].
Qed.

(** What [lastIndexOf] answers for the one-character needle LF. *)
Lemma lastIndexOf_from_spec (s : string) (k found : Z) :
  (JS.lastIndexOf_from k s JS.nl found = found ∧
   ∀ j, String.get j s ≠ Some JS.LF) ∨
  (∃ j, JS.lastIndexOf_from k s JS.nl found = (k + Z.of_nat j)%Z ∧
        String.get j s = Some JS.LF ∧
        ∀ j', j < j' → String.get j' s ≠ Some JS.LF).
Proof.
  revert k found. induction s as [|b s IH]; intros k found.
  - left. split; [done|]. by intros [|j].
  - cbn [JS.lastIndexOf_from].
    destruct (JS.startsWith (String b s) JS.nl) eqn:Hb.
    + apply startsWith_nl in Hb. right.
      destruct (IH (k + 1)%Z k) as [[-> Hno]|(j & -> & Hj & Hlast)].
      * exists 0. split; [f_equal; lia|]. split; [done|].
        intros [|j'] ?; [lia|]. apply Hno.
      * exists (S j). split; [lia|]. split; [done|].
        intros [|j'] ?; [lia|]. apply Hlast. lia.
    + destruct (IH (k + 1)%Z found) as [[-> Hno]|(j & -> & Hj & Hlast)].
      * left. split; [done|]. intros [|j]; [|apply Hno].
        intros H. apply startsWith_nl in H. congruence.
      * right. exists (S j). split; [lia|]. split; [done|].
        intros [|j'] ?; [lia|]. apply Hlast. lia.
Qed.

Lemma lastIndexOf_nl_spec (s : string) :
  (JS.lastIndexOf s JS.nl = (-1)%Z ∧ ∀ j, String.get j s ≠ Some JS.LF) ∨
  (∃ j, JS.lastIndexOf s JS.nl = Z.of_nat j ∧
        String.get j s = Some JS.LF ∧
        ∀ j', j < j' → String.get j' s ≠ Some JS.LF).
Proof.
  unfold JS.lastIndexOf.
  destruct (lastIndexOf_from_spec s 0 (-1)) as [?|(j & ? & ?)]; [by left|].
  right. exists j. by rewrite Z.add_0_l in *.
Qed.

Lemma list_ascii_app (s t : string) :
  String.list_ascii_of_string (s +:+ t) =
  String.list_ascii_of_string s ++ String.list_ascii_of_string t.
Proof. induction s as [|c s IH]; [done|]. rewrite app_cons. simpl. by rewrite IH. Qed.

Lemma list_ascii_inj (s t : string) :
  String.list_ascii_of_string s = String.list_ascii_of_string t → s = t.
Proof.
  intros H. rewrite <- (String.string_of_list_ascii_of_string s).
  rewrite <- (String.string_of_list_ascii_of_string t). by rewrite H.
Qed.

Lemma app_inv_tail_str (s s' t : string) : s +:+ t = s' +:+ t → s = s'.
Proof.
  intros H. apply list_ascii_inj.
  apply (f_equal String.list_ascii_of_string) in H.
  rewrite !list_ascii_app in H. by apply app_inv_tail in H.
Qed.

Lemma app_inv_head_str (s t t' : string) : s +:+ t = s +:+ t' → t = t'.
Proof.
  intros H. apply list_ascii_inj.
  apply (f_equal String.list_ascii_of_string) in H.
  rewrite !list_ascii_app in H. by apply app_inv_head in H.
Qed.


(** ** [truncateDiff] *)

Lemma truncateDiff_short (diffText : string) (maxChars : nat) :
  String.length diffText ≤ maxChars →
  truncateDiff diffText maxChars = {| truncated := false; text := diffText |}.
Proof.
  intros H. unfold truncateDiff.
  by destruct (Nat.leb_spec (String.length diffText) maxChars); [|lia].
Qed.

Lemma truncateDiff_long (diffText : string) (maxChars : nat) :
  maxChars < String.length diffText →
  truncated (truncateDiff diffText maxChars) = true ∧
  ∃ kept, text (truncateDiff diffText maxChars) = kept +:+ TRUNCATION_NOTE ∧
    ((∃ j, 0 < j < maxChars ∧ kept = JS.slice diffText 0 j ∧
           String.get j diffText = Some JS.LF ∧
           ∀ j', j < j' < maxChars → String.get j' diffText ≠ Some JS.LF) ∨
     (kept = JS.slice diffText 0 maxChars ∧
      ∀ j, 0 < j < maxChars → String.get j diffText ≠ Some JS.LF)).
Proof.
  intros Hlen. unfold truncateDiff.
  destruct (Nat.leb_spec (String.length diffText) maxChars); [lia|].
  cbn [truncated text]. split; [done|].
  set (slice := JS.slice diffText 0 maxChars).
  destruct (lastIndexOf_nl_spec slice) as [[-> Hno]|(j & -> & Hj & Hlast)].
  - exists slice. split; [done|]. right. split; [done|].
    intros j [? ?] Hget. apply (Hno j). unfold slice. by rewrite get_slice.
  - assert (j < maxChars) as Hjm.
    { destruct (decide (j < maxChars)); [done|].
      unfold slice in Hj. rewrite get_slice_None in Hj by lia. done. }
    destruct (Z.ltb_spec 0 (Z.of_nat j)).
    + exists (JS.slice diffText 0 j). rewrite Nat2Z.id.
      unfold slice. rewrite slice_slice by lia. split; [done|].
      left. exists j. split; [lia|]. split; [done|].
      unfold slice in Hj. rewrite get_slice in Hj by done. split; [done|].
      intros j' [? ?] Hget. apply (Hlast j'); [done|].
      unfold slice. by rewrite get_slice.
    + exists slice. split; [done|]. right. split; [done|].
      intros j' [? ?] Hget. apply (Hlast j'); [lia|].
      unfold slice. by rewrite get_slice.
Qed.

(** C4, amended.  [truncateDiff text maxChars] returns the text unchanged,
    with [truncated = false], when it has at most [maxChars] characters.
    When it is longer, [truncated = true] and the fixed note is appended to
    the kept part.  If a line feed stands at an index strictly between 0 and
    [maxChars], the kept part is the text up to the last such line feed: it
    is non-empty, shorter than [maxChars], and ends right before a line feed
    of the input.  If none does (no line feed in the slice, or only one at
    index 0), the kept part is the raw slice of the first [maxChars]
    characters. *)
Theorem truncateDiff_contract (diffText : string) (maxChars : nat) :
  (String.length diffText ≤ maxChars →
   truncateDiff diffText maxChars =
     {| truncated := false; text := diffText |}) ∧
  (maxChars < String.length diffText →
   truncated (truncateDiff diffText maxChars) = true ∧
   ((∃ i, 0 < i < maxChars ∧ String.get i diffText = Some JS.LF) →
    ∃ kept rest,
      diffText = kept +:+ JS.nl +:+ rest ∧
      text (truncateDiff diffText maxChars) = kept +:+ TRUNCATION_NOTE ∧
      0 < String.length kept < maxChars ∧
      ∀ j, String.length kept < j < maxChars →
           String.get j diffText ≠ Some JS.LF) ∧
   ((∀ i, 0 < i < maxChars → String.get i diffText ≠ Some JS.LF) →
    text (truncateDiff diffText maxChars) =
      JS.slice diffText 0 maxChars +:+ TRUNCATION_NOTE ∧
    String.length (JS.slice diffText 0 maxChars) = maxChars)).
Proof.
  split; [apply truncateDiff_short|].
  intros Hlen.
  destruct (truncateDiff_long diffText maxChars Hlen)
    as (Ht & kept & Htext & Hcase).
  split; [done|]. split.
  - intros (i & Hi & Hget).
    destruct Hcase as [(j & Hj & -> & Hjget & Hlast)|[_ Hno]].
    + destruct (split_at_get _ _ _ Hjget) as [rest Hrest].
      exists (JS.slice diffText 0 j), rest.
      rewrite length_slice, Nat.min_l by lia.
      split; [done|]. split; [done|]. split; [lia|]. done.
    + by destruct (Hno i Hi).
  - intros Hno.
    destruct Hcase as [(j & Hj & -> & Hjget & Hlast)|[-> _]].
    + by destruct (Hno j Hj).
    + split; [done|]. rewrite length_slice. lia.
Qed.


Lemma truncateDiff_contract_witness :
  truncateDiff "abc" 5 = {| truncated := false; text := "abc" |} ∧
  ∃ kept rest,
    "ab" +:+ JS.nl +:+ "cdef" = kept +:+ JS.nl +:+ rest ∧
    text (truncateDiff ("ab" +:+ JS.nl +:+ "cdef") 5)
      = kept +:+ TRUNCATION_NOTE ∧
    0 < String.length kept < 5 ∧
    ∀ j, String.length kept < j < 5 →
         String.get j ("ab" +:+ JS.nl +:+ "cdef") ≠ Some JS.LF.
Proof.
  split.
  - apply (truncateDiff_contract "abc" 5). vm_compute. lia.
  - apply (truncateDiff_contract ("ab" +:+ JS.nl +:+ "cdef") 5).
    + vm_compute. lia.
    + exists 2. split; [lia|reflexivity].
Defined.

(** C4 as stated fails when the only line feed of the slice is its first
    character: the raw slice is kept, and it stops in the middle of a line. *)
Lemma truncateDiff_leading_newline :
  let diffText := JS.nl +:+ "abcdef" in
  3 < String.length diffText ∧
  (∃ i, i < 3 ∧ String.get i diffText = Some JS.LF) ∧
  ¬ ends_at_line_boundary diffText (truncateDiff diffText 3).
Proof.
  split; [vm_compute; lia|]. split; [exists 0; split; [lia|reflexivity]|].
  intros (kept & rest & Hd & Ht).
  change (text (truncateDiff (JS.nl +:+ "abcdef") 3))
    with ((JS.nl +:+ "ab") +:+ TRUNCATION_NOTE) in Ht.
  apply app_inv_tail_str in Ht. subst kept. discriminate Hd.
Qed.

(** ** [parseUniqueLines] *)

Lemma truthy_spec (s : string) : JS.truthy s = true ↔ s ≠ "".
Proof.
  unfold JS.truthy. rewrite negb_true_iff. apply String.eqb_neq.
Qed.

Lemma parseUniqueLines_fold (raws : list string) (seen : gset string)
    (acc : list string) :
  snd (foldl parseUniqueLines_step (seen, acc) raws) =
  acc ++ first_occurrences seen (filter (λ l, l ≠ "") (JS.trim <$> raws)).
Proof.
  revert seen acc. induction raws as [|raw raws IH]; intros seen acc.
  - simpl. by rewrite app_nil_r.
  - cbn [foldl fmap list_fmap]. rewrite filter_cons.
    unfold parseUniqueLines_step at 2.
    destruct (JS.truthy (JS.trim raw)) eqn:Ht; cbn [negb orb].
    + apply truthy_spec in Ht. rewrite decide_True by done.
      cbn [first_occurrences].
      destruct (decide (JS.trim raw ∈ seen)) as [Hin|Hin].
      * rewrite bool_decide_eq_true_2 by done. apply IH.
      * rewrite bool_decide_eq_false_2 by done. rewrite IH.
        by rewrite <- app_assoc.
    + assert (JS.trim raw = "") as Hempty.
      { destruct (decide (JS.trim raw = "")); [done|].
        apply truthy_spec in n. congruence. }
      rewrite decide_False by (by intros ?). apply IH.
Qed.

Lemma parseUniqueLines_first_occurrences (text : string) :
  parseUniqueLines text = first_occurrences ∅ (trimmed_lines text).
Proof. unfold parseUniqueLines. by rewrite parseUniqueLines_fold. Qed.

Lemma first_occurrences_elem (seen : gset string) (l : list string) (x : string) :
  x ∈ first_occurrences seen l ↔ x ∈ l ∧ x ∉ seen.
Proof.
  revert seen. induction l as [|y l IH]; intros seen; simpl.
  - set_solver.
  - destruct (decide (y ∈ seen)).
    + rewrite IH. set_solver.
    + rewrite elem_of_cons, IH. destruct (decide (x = y)); set_solver.
Qed.

Lemma first_occurrences_NoDup (seen : gset string) (l : list string) :
  NoDup (first_occurrences seen l).
Proof.
  revert seen. induction l as [|y l IH]; intros seen; simpl.
  - constructor.
  - destruct (decide (y ∈ seen)); [apply IH|].
    constructor; [|apply IH]. rewrite first_occurrences_elem. set_solver.
Qed.

Lemma first_occurrences_sublist (seen : gset string) (l : list string) :
  first_occurrences seen l `sublist_of` l.
Proof.
  revert seen. induction l as [|y l IH]; intros seen; simpl; [done|].
  destruct (decide (y ∈ seen)).
  - by apply sublist_cons.
  - by apply sublist_skip.
Qed.

Lemma first_occurrences_app (seen : gset string) (l1 l2 : list string) :
  first_occurrences seen (l1 ++ l2) =
  first_occurrences seen l1 ++ first_occurrences (list_to_set l1 ∪ seen) l2.
Proof.
  revert seen. induction l1 as [|y l1 IH]; intros seen; simpl.
  - by rewrite (left_id_L ∅ (∪)).
  - destruct (decide (y ∈ seen)).
    + rewrite IH. do 2 f_equal. set_solver.
    + rewrite IH. simpl. do 3 f_equal. set_solver.
Qed.

(** Where an entry first occurs in the input decides its place in the
    output: what precedes it in the output are the first occurrences of what
    precedes it in the input. *)
Lemma first_occurrences_split (l1 l2 : list string) (x : string) :
  x ∉ l1 →
  first_occurrences ∅ (l1 ++ x :: l2) =
  first_occurrences ∅ l1 ++
  x :: first_occurrences ({[ x ]} ∪ list_to_set l1) l2.
Proof.
  intros Hx. rewrite first_occurrences_app. f_equal.
  simpl. rewrite decide_False by set_solver. do 2 f_equal. set_solver.
Qed.

(** *** [trim] *)

Lemma trimStart_head (s : string) :
  JS.trimStart s = "" ∨
  ∃ c r, JS.trimStart s = String c r ∧ JS.is_white c = false.
Proof.
  induction s as [|c s IH]; [by left|]. cbn [JS.trimStart].
  destruct (JS.is_white c) eqn:Hc; [done|]. right. by exists c, s.
Qed.

Lemma trimEnd_idem (s : string) : JS.trimEnd (JS.trimEnd s) = JS.trimEnd s.
Proof.
  induction s as [|c s IH]; [done|]. cbn [JS.trimEnd].
  destruct (JS.trimEnd s) as [|d t] eqn:Ht.
  - destruct (JS.is_white c) eqn:Hc; [done|].
    cbn [JS.trimEnd]. by rewrite Hc.
  - cbn [JS.trimEnd] in *. by rewrite IH.
Qed.

Lemma trimEnd_head (c : ascii) (s : string) :
  JS.is_white c = false → ∃ r, JS.trimEnd (String c s) = String c r.
Proof.
  intros Hc. cbn [JS.trimEnd]. destruct (JS.trimEnd s); rewrite ?Hc; eauto.
Qed.

Lemma trim_idem (s : string) : JS.trim (JS.trim s) = JS.trim s.
Proof.
  unfold JS.trim.
  destruct (trimStart_head s) as [->|(c & r & -> & Hc)]; [done|].
  destruct (trimEnd_head c r Hc) as [r' Hr]. rewrite Hr.
  cbn [JS.trimStart]. rewrite Hc. rewrite <- Hr. apply trimEnd_idem.
Qed.

(** *** [split(/\r?\n/)] *)

Lemma includes_nl_cons (c : ascii) (s : string) :
  JS.includes (String c s) JS.nl = false →
  c ≠ JS.LF ∧ JS.includes s JS.nl = false.
Proof.
  cbn [JS.includes]. intros H. apply orb_false_iff in H as [H1 H2].
  split; [|done]. intros ->.
  assert (JS.startsWith (String JS.LF s) JS.nl = true); [|congruence].
  by apply startsWith_nl.
Qed.

Lemma ascii_eqb_false (a b : ascii) : a ≠ b → Ascii.eqb a b = false.
Proof. intros H. by apply Ascii.eqb_neq. Qed.

(** A piece without line feed that is followed by CR LF is one line. *)
Lemma split_lines_CRLF (a b : string) :
  JS.includes a JS.nl = false →
  JS.split_lines (a +:+ JS.cr +:+ JS.nl +:+ b) = a :: JS.split_lines b.
Proof.
  induction a as [|c a IH]; intros Ha.
  - reflexivity.
  - apply includes_nl_cons in Ha as [Hc Ha]. specialize (IH Ha).
    rewrite app_cons. cbn [JS.split_lines].
    rewrite (ascii_eqb_false c JS.LF Hc).
    destruct a as [|d a].
    + change ("" +:+ JS.cr +:+ JS.nl +:+ b)
        with (String JS.CR (String JS.LF b)) in *.
      cbv beta iota.
      change (Ascii.eqb JS.CR JS.LF) with false. rewrite andb_false_r.
      by rewrite IH.
    + apply includes_nl_cons in Ha as [Hd _].
      rewrite app_cons in *. rewrite (ascii_eqb_false d JS.LF Hd).
      rewrite andb_false_r. by rewrite IH.
Qed.

(** A piece without line feed and not ending in CR that is followed by LF
    is one line. *)
Lemma split_lines_LF (a b : string) :
  JS.includes a JS.nl = false → JS.endsWith a JS.cr = false →
  JS.split_lines (a +:+ JS.nl +:+ b) = a :: JS.split_lines b.
Proof.
  induction a as [|c a IH]; intros Ha He.
  - reflexivity.
  - apply includes_nl_cons in Ha as [Hc Ha].
    cbn [JS.endsWith] in He. apply orb_false_iff in He as [He1 He2].
    specialize (IH Ha He2).
    rewrite app_cons. cbn [JS.split_lines].
    rewrite (ascii_eqb_false c JS.LF Hc).
    destruct a as [|d a].
    + change ("" +:+ JS.nl +:+ b) with (String JS.LF b) in *.
      cbv beta iota.
      assert (Ascii.eqb c JS.CR = false) as ->.
      { apply ascii_eqb_false. intros ->. by rewrite String.eqb_refl in He1. }
      cbn [andb]. by rewrite IH.
    + apply includes_nl_cons in Ha as [Hd _].
      rewrite app_cons in *. rewrite (ascii_eqb_false d JS.LF Hd).
      rewrite andb_false_r. by rewrite IH.
Qed.

(** A text without line feed is a single line, whatever CRs it holds. *)
Lemma split_lines_single (a : string) :
  JS.includes a JS.nl = false → JS.split_lines a = [a].
Proof.
  induction a as [|c a IH]; intros Ha; [done|].
  apply includes_nl_cons in Ha as [Hc Ha]. specialize (IH Ha).
  cbn [JS.split_lines]. rewrite (ascii_eqb_false c JS.LF Hc).
  destruct a as [|d a]; [done|].
  apply includes_nl_cons in Ha as [Hd _].
  rewrite (ascii_eqb_false d JS.LF Hd), andb_false_r. by rewrite IH.
Qed.

(** *** The contract *)

(** C5, amended.  [parseUniqueLines] is a total pure function; on the empty
    text it returns the empty list.  Its result has no duplicates, holds
    exactly the non-empty trimmed lines of the input (compared exactly, case
    included), each entry free of surrounding white space, in input order,
    every entry placed where it first occurs.  Lines are separated by LF or
    CR LF; a lone CR separates nothing. *)
Theorem parseUniqueLines_contract (text : string) :
  parseUniqueLines "" = [] ∧
  NoDup (parseUniqueLines text) ∧
  (∀ l, l ∈ parseUniqueLines text ↔ l ∈ trimmed_lines text) ∧
  (∀ l, l ∈ parseUniqueLines text → l ≠ "" ∧ JS.trim l = l) ∧
  parseUniqueLines text `sublist_of` trimmed_lines text ∧
  (∀ before l after,
     trimmed_lines text = before ++ l :: after → l ∉ before →
     ∃ out_before out_after,
       parseUniqueLines text = out_before ++ l :: out_after ∧
       ∀ x, x ∈ out_before ↔ x ∈ before) ∧
  (∀ a b, JS.includes a JS.nl = false → JS.endsWith a JS.cr = false →
     JS.split_lines (a +:+ JS.nl +:+ b) = a :: JS.split_lines b) ∧
  (∀ a b, JS.includes a JS.nl = false →
     JS.split_lines (a +:+ JS.cr +:+ JS.nl +:+ b) = a :: JS.split_lines b) ∧
  (∀ a, JS.includes a JS.nl = false → JS.split_lines a = [a]).
Proof.
  split; [reflexivity|].
  rewrite parseUniqueLines_first_occurrences.
  split; [apply first_occurrences_NoDup|].
  split.
  { intros l. rewrite first_occurrences_elem. set_solver. }
  split.
  { intros l Hl. apply first_occurrences_elem in Hl as [Hl _].
    unfold trimmed_lines in Hl. apply list_elem_of_filter in Hl as [Hne Hl].
    split; [done|]. apply list_elem_of_fmap in Hl as (raw & -> & _).
    apply trim_idem. }
  split; [apply first_occurrences_sublist|].
  split.
  { intros before l after Heq Hl. rewrite Heq.
    rewrite first_occurrences_split by done.
    eexists _, _. split; [done|].
    intros x. rewrite first_occurrences_elem. set_solver. }
  split; [apply split_lines_LF|].
  split; [apply split_lines_CRLF|apply split_lines_single].
Qed.

Lemma parseUniqueLines_contract_witness :
  ∃ out_before out_after,
    parseUniqueLines ("b" +:+ JS.cr +:+ JS.nl +:+ " a " +:+ JS.nl +:+ "b")
    = out_before ++ "a" :: out_after ∧ ∀ x, x ∈ out_before ↔ x ∈ ["b"].
Proof.
  apply (parseUniqueLines_contract
           ("b" +:+ JS.cr +:+ JS.nl +:+ " a " +:+ JS.nl +:+ "b"))
    with (after := ["b"]).
  - vm_compute. reflexivity.
  - intros H. apply list_elem_of_singleton in H. discriminate H.
Defined.

(** C5 as stated fails for the lone-CR convention: the text is one line. *)
Lemma parseUniqueLines_lone_CR :
  JS.cr ∈ line_endings ∧
  parseUniqueLines ("a" +:+ JS.cr +:+ "b") = ["a" +:+ JS.cr +:+ "b"] ∧
  parseUniqueLines ("a" +:+ JS.cr +:+ "b") ≠ ["a"; "b"].
Proof.
  split; [unfold line_endings; set_solver|].
  split; [vm_compute; reflexivity|]. vm_compute. discriminate.
Qed.

(** ** The guards *)

Lemma with_requests_nil (st : State) : with_requests st [] = st.
Proof. destruct st. unfold with_requests. simpl. by rewrite app_nil_r. Qed.

Lemma with_requests_app (st : State) (a b : list Request) :
  with_requests (with_requests st a) b = with_requests st (a ++ b).
Proof. unfold with_requests. simpl. by rewrite app_assoc. Qed.

Lemma send_with_requests (rq : Request) (st : State) :
  send rq st = with_requests st [rq].
Proof. reflexivity. Qed.

Lemma comments_of_with_requests (st : State) (rs : list Request)
    (o r : string) (n : Z) :
  comments_of (with_requests st rs) o r n = comments_of st o r n.
Proof. reflexivity. Qed.

Lemma scan_page_app (on_cap : bool) (marker : string)
    (p1 p2 : list Comment) (s : nat) :
  scan_page on_cap marker (p1 ++ p2) s =
  match scan_page on_cap marker p1 s with
  | Return b => Return b
  | Continue s' => scan_page on_cap marker p2 s'
  end.
Proof.
  revert s. induction p1 as [|c p1 IH]; intros s; [done|].
  rewrite <- app_comm_cons. cbn [scan_page].
  destruct (has_marker marker c); [done|].
  destruct (MAX_COMMENTS_TO_SCAN <=? s + 1); [done|]. apply IH.
Qed.

(** The inner loop in closed form. *)
Lemma scan_page_closed (on_cap : bool) (marker : string)
    (l : list Comment) (s : nat) :
  s < MAX_COMMENTS_TO_SCAN →
  scan_page on_cap marker l s =
  if existsb (has_marker marker) (take (MAX_COMMENTS_TO_SCAN - s) l)
  then Return true
  else if MAX_COMMENTS_TO_SCAN - s <=? length l then Return on_cap
       else Continue (s + length l).
Proof.
  revert s. induction l as [|c l IH]; intros s Hs.
  - rewrite take_nil. cbn [scan_page existsb length].
    destruct (Nat.leb_spec (MAX_COMMENTS_TO_SCAN - s) 0); [lia|].
    by rewrite Nat.add_0_r.
  - cbn [scan_page].
    replace (MAX_COMMENTS_TO_SCAN - s) with (S (MAX_COMMENTS_TO_SCAN - (s + 1)))
      by lia.
    rewrite firstn_cons. cbn [existsb length].
    destruct (has_marker marker c); [done|]. cbn [orb].
    destruct (Nat.leb_spec MAX_COMMENTS_TO_SCAN (s + 1)) as [Hcap|Hcap].
    + replace (MAX_COMMENTS_TO_SCAN - (s + 1)) with 0 by lia.
      rewrite take_0. cbn [existsb].
      by destruct (Nat.leb_spec 1 (S (length l))); [|lia].
    + rewrite IH by done.
      destruct (existsb _ _); [done|].
      destruct (Nat.leb_spec (MAX_COMMENTS_TO_SCAN - (s + 1)) (length l));
        destruct (Nat.leb_spec (S (MAX_COMMENTS_TO_SCAN - (s + 1)))
                    (S (length l))); try lia; [done|].
      f_equal. lia.
Qed.


Lemma scan_page_Continue (on_cap : bool) (marker : string)
    (l : list Comment) (s s' : nat) :
  scan_page on_cap marker l s = Continue s' →
  s' = s + length l ∧ (l ≠ [] → s' < MAX_COMMENTS_TO_SCAN) ∧
  existsb (has_marker marker) l = false.
Proof.
  revert s. induction l as [|c l IH]; intros s; cbn [scan_page existsb length].
  - intros [= <-]. split; [lia|]. done.
  - destruct (has_marker marker c); [done|].
    destruct (Nat.leb_spec MAX_COMMENTS_TO_SCAN (s + 1)) as [|Hcap]; [done|].
    intros H. apply IH in H as (-> & Hlt & Hex).
    split; [lia|]. split; [|done]. intros _.
    destruct l; [simpl; lia|]. by apply Hlt.
Qed.

(** The outer loop against its pure counterpart. *)
Lemma scan_pages_fetched (on_cap : bool) (gh : GitHub) (o r : string)
    (n : Z) (marker : string) (pages : list nat) (s : nat) (st : State) :
  scan_pages on_cap gh o r n marker pages s st =
  let '(res, k) :=
    scan_fetched on_cap marker
      (fetched gh n (comments_of st o r n) <$> pages) s in
  (res, with_requests st (ListComments o r n (Some 100) <$> take k pages)).
Proof.
  revert s st. induction pages as [|p pages IH]; intros s st.
  - cbn. by rewrite with_requests_nil.
  - cbn [scan_pages fmap list_fmap scan_fetched].
    unfold mbind, M_bind, bind, listComments, fetched at 1.
    rewrite send_with_requests.
    destruct (list_error gh n p) as [e|]; [done|].
    cbn [default].
    destruct (scan_page on_cap marker _ s) as [s'|b]; [|done].
    rewrite IH. rewrite comments_of_with_requests.
    destruct (scan_fetched _ _ _ _) as [res k].
    rewrite with_requests_app. done.
Qed.

(** *** Pages of a thread *)

Lemma pages_concat (k n : nat) (l : list Comment) :
  concat ((λ p, page_of k p l) <$> seq 0 n) = take (n * k) l.
Proof.
  induction n as [|n IH]; [by rewrite take_0|].
  rewrite seq_S, fmap_app, concat_app, IH. cbn [fmap list_fmap concat].
  rewrite app_nil_r. unfold page_of. rewrite Nat.add_0_l.
  rewrite take_take_drop. f_equal. lia.
Qed.

Lemma page_count_covers (l : list Comment) :
  length l ≤ page_count 100 l * 100.
Proof.
  unfold page_count.
  pose proof (Nat.div_mod_eq (length l + 100 - 1) 100) as Hdm.
  pose proof (Nat.mod_upper_bound (length l + 100 - 1) 100) as Hub.
  lia.
Qed.

Lemma page_count_inner (l : list Comment) (p : nat) :
  S p < page_count 100 l → (S p) * 100 < length l.
Proof.
  unfold page_count. intros H.
  pose proof (Nat.div_mod_eq (length l + 100 - 1) 100) as Hdm.
  pose proof (Nat.mod_upper_bound (length l + 100 - 1) 100) as Hub.
  lia.
Qed.

Lemma page_count_pos (l : list Comment) : 0 < page_count 100 l.
Proof. unfold page_count. lia. Qed.

Lemma page_full (l : list Comment) (p : nat) :
  S p < page_count 100 l → length (page_of 100 p l) = 100.
Proof.
  intros H. apply page_count_inner in H. unfold page_of.
  rewrite length_take, length_drop. lia.
Qed.

Lemma all_pages (l : list Comment) :
  concat ((λ p, page_of 100 p l) <$> seq 0 (page_count 100 l)) = l.
Proof.
  rewrite pages_concat. apply take_ge, page_count_covers.
Qed.

(** *** The pure loop *)

Lemma scan_fetched_prefix (on_cap : bool) (marker : string)
    (ps : list (list Comment)) (rest : list (Error + list Comment))
    (s : nat) :
  fst (scan_fetched on_cap marker ((inr <$> ps) ++ rest) s) =
  match scan_page on_cap marker (concat ps) s with
  | Return b => Normal (Some b)
  | Continue s' => fst (scan_fetched on_cap marker rest s')
  end.
Proof.
  revert s. induction ps as [|p ps IH]; intros s; [done|].
  cbn [fmap list_fmap app concat scan_fetched]. rewrite scan_page_app.
  destruct (scan_page on_cap marker p s) as [s'|b]; [|done].
  specialize (IH s'). destruct (scan_fetched _ _ _ s'). apply IH.
Qed.




Lemma fetched_succeeds (gh : GitHub) (n : Z) (l : list Comment)
    (pages : list nat) :
  (∀ p, p ∈ pages → list_error gh n p = None) →
  fetched gh n l <$> pages = inr <$> ((λ p, page_of 100 p l) <$> pages).
Proof.
  induction pages as [|p pages IH]; intros H; [done|].
  cbn [fmap list_fmap]. unfold fetched at 1.
  rewrite H by apply list_elem_of_here. f_equal.
  apply IH. intros q Hq. apply H. by apply list_elem_of_further.
Qed.

(** At most five pages are ever requested. *)
Lemma scan_fetched_bound (on_cap : bool) (marker : string) (gh : GitHub)
    (n : Z) (l : list Comment) (count i : nat) :
  i ≤ 4 → i + count ≤ page_count 100 l →
  snd (scan_fetched on_cap marker (fetched gh n l <$> seq i count) (i * 100))
  ≤ 5 - i.
Proof.
  revert i. induction count as [|count IH]; intros i Hi Hn; [simpl; lia|].
  cbn [seq fmap list_fmap scan_fetched]. unfold fetched at 1.
  destruct (list_error gh n i); [simpl; lia|].
  destruct (scan_page on_cap marker _ _) as [s'|b] eqn:Hp; [|simpl; lia].
  apply scan_page_Continue in Hp as (-> & Hlt & _).
  destruct count as [|count]; [simpl; lia|].
  rewrite page_full in * by lia.
  assert (i * 100 + 100 < MAX_COMMENTS_TO_SCAN) as Hcap.
  { apply Hlt. intros Hnil. apply (f_equal length) in Hnil.
    rewrite page_full in Hnil by lia. done. }
  unfold MAX_COMMENTS_TO_SCAN in Hcap.
  replace (i * 100 + 100) with (S i * 100) by lia.
  specialize (IH (S i)).
  destruct (scan_fetched _ _ _ _) as [res k]. cbn [snd] in *.
  assert (k ≤ 5 - S i) by (apply IH; lia). lia.
Qed.

(** *** The guards run *)

Lemma guard_instances :
  ProtobufReview.hasExistingTriggerComment = guard_with true true ∧
  GeneratedDiff.hasExistingTriggerComment = guard_with false false.
Proof. split; reflexivity. Qed.

Lemma scan_fetched_count (on_cap : bool) (marker : string)
    (rs : list (Error + list Comment)) (s : nat) :
  snd (scan_fetched on_cap marker rs s) ≤ length rs.
Proof.
  revert s. induction rs as [|[e|p] rs IH]; intros s; simpl; [lia..|].
  destruct (scan_page on_cap marker p s) as [s'|b]; [|simpl; lia].
  specialize (IH s'). destruct (scan_fetched _ _ rs s'). simpl in *. lia.
Qed.

Lemma scan_thread_run (on_cap : bool) (gh : GitHub) (o r : string) (n : Z)
    (marker : string) (st : State) :
  ∃ k, k ≤ 5 ∧
    scan_thread on_cap gh o r n marker st =
    (fst (scan_fetched on_cap marker
            (fetched gh n (comments_of st o r n)
               <$> seq 0 (page_count 100 (comments_of st o r n))) 0),
     with_requests st (ListComments o r n (Some 100) <$> seq 0 k)).
Proof.
  unfold scan_thread. rewrite scan_pages_fetched.
  set (l := comments_of st o r n).
  pose proof (scan_fetched_bound on_cap marker gh n l (page_count 100 l) 0)
    as Hb.
  pose proof (scan_fetched_count on_cap marker
                (fetched gh n l <$> seq 0 (page_count 100 l)) 0) as Hc.
  rewrite length_fmap, length_seq in Hc.
  change (0 * 100) with 0 in Hb.
  destruct (scan_fetched _ _ _ _) as [res k]. cbn [fst snd] in *.
  exists k. split; [lia|]. rewrite take_seq, Nat.min_l by done. done.
Qed.

Lemma guard_with_run (on_cap on_error : bool) (gh : GitHub) (o r : string)
    (n : Z) (marker : string) (st : State) :
  ∃ k, k ≤ 5 ∧
    let st1 := with_requests st (ListComments o r n (Some 100) <$> seq 0 k) in
    guard_with on_cap on_error gh o r n marker st =
    match fst (scan_fetched on_cap marker
                 (fetched gh n (comments_of st o r n)
                    <$> seq 0 (page_count 100 (comments_of st o r n))) 0) with
    | Normal found => (Normal (default false found), st1)
    | Thrown e => (Normal on_error, with_line st1 (guard_failure_entry e o r n))
    end.
Proof.
  destruct (scan_thread_run on_cap gh o r n marker st) as (k & Hk & Hrun).
  exists k. split; [done|]. cbn zeta.
  unfold guard_with, mbind, M_bind, bind, try_catch. rewrite Hrun.
  by destruct (fst _) as [found|e].
Qed.

(** A guard never throws, changes no thread, and sends at most five
    requests, all of them page listings. *)
Lemma guard_with_total (on_cap on_error : bool) (gh : GitHub) (o r : string)
    (n : Z) (marker : string) (st : State) :
  ∃ b st' k,
    guard_with on_cap on_error gh o r n marker st = (Normal b, st') ∧
    threads st' = threads st ∧
    k ≤ 5 ∧
    requests st' = requests st ++ (ListComments o r n (Some 100) <$> seq 0 k).
Proof.
  destruct (guard_with_run on_cap on_error gh o r n marker st)
    as (k & Hk & Hrun). cbn zeta in Hrun.
  destruct (fst _) as [found|e]; eauto 10.
Qed.

Lemma guard_with_listing_ok (on_cap on_error : bool) (gh : GitHub)
    (o r : string) (n : Z) (marker : string) (st : State) :
  listing_succeeds gh n →
  ∃ st', guard_with on_cap on_error gh o r n marker st =
         (Normal (scan_answer on_cap marker (comments_of st o r n)), st').
Proof.
  intros Hok.
  destruct (guard_with_run on_cap on_error gh o r n marker st)
    as (k & Hk & Hrun). cbn zeta in Hrun. rewrite Hrun. clear Hrun.
  set (l := comments_of st o r n).
  rewrite fetched_succeeds by (intros; apply Hok).
  rewrite <- (app_nil_r (inr <$> _)), scan_fetched_prefix, all_pages.
  rewrite scan_page_closed by (unfold MAX_COMMENTS_TO_SCAN; lia).
  rewrite Nat.sub_0_r. unfold scan_answer.
  destruct (existsb _ _); [eauto|].
  destruct (_ <=? _); eauto.
Qed.

(** The listing fails at page [k] before the marker is found or the cap is
    reached: the guard answers [on_error] and says so on the console. *)
Lemma guard_with_listing_fails (on_cap on_error : bool) (gh : GitHub)
    (o r : string) (n : Z) (marker : string) (st : State)
    (k : nat) (e : Error) :
  k < page_count 100 (comments_of st o r n) →
  k * 100 < MAX_COMMENTS_TO_SCAN →
  (∀ p, p < k → list_error gh n p = None) →
  list_error gh n k = Some e →
  existsb (has_marker marker) (take (k * 100) (comments_of st o r n)) = false →
  ∃ st', guard_with on_cap on_error gh o r n marker st = (Normal on_error, st')
         ∧ last (console st') = Some (guard_failure_entry e o r n)
         ∧ threads st' = threads st.
Proof.
  intros HkN Hcap Hbefore Hfail Hnone.
  destruct (guard_with_run on_cap on_error gh o r n marker st)
    as (j & Hj & Hrun). cbn zeta in Hrun. rewrite Hrun. clear Hrun.
  set (l := comments_of st o r n) in *.
  replace (page_count 100 l) with (k + S (page_count 100 l - S k)) by lia.
  rewrite seq_app, fmap_app. cbn [seq fmap list_fmap]. rewrite Nat.add_0_l.
  rewrite (fetched_succeeds gh n l (seq 0 k)).
  2:{ intros p Hp. apply Hbefore. apply elem_of_seq in Hp. lia. }
  unfold fetched at 1. rewrite Hfail.
  rewrite scan_fetched_prefix, pages_concat.
  rewrite scan_page_closed by (unfold MAX_COMMENTS_TO_SCAN; lia).
  rewrite Nat.sub_0_r, take_take, Nat.min_r by lia. rewrite Hnone.
  destruct (Nat.leb_spec MAX_COMMENTS_TO_SCAN (length (take (k * 100) l)))
    as [Hle|Hlt].
  { rewrite length_take in Hle. lia. }
  cbn [scan_fetched fst]. eexists. split; [done|].
  split; [|done]. cbn [with_line console]. by rewrite last_snoc.
Qed.


(** ** The orchestrators *)

Lemma put_line_run (ch : stream) (l : string) (d : list (string * value))
    (st : State) :
  put_line ch l d st =
  (Normal (), with_line st {| channel := ch; line := l; detail := d |}).
Proof. reflexivity. Qed.

Lemma console_log_run (l : string) (d : list (string * value)) (st : State) :
  console_log l d st =
  (Normal (), with_line st {| channel := Out; line := l; detail := d |}).
Proof. reflexivity. Qed.

(** The closing [try]/[catch] of the two protobuf scripts, case by case. *)
Lemma post_or_skip_run (gh : GitHub) (o r : string) (n : Z) (b : string)
    (st : State) :
  let sent := with_requests st [CreateComment o r n b] in
  match create_error gh n b with
  | None =>
      ∃ entry,
        post_or_skip gh o r n b st =
        (Normal (),
         with_line
           {| threads := <[ (o, r, n) :=
                              comments_of st o r n ++ [{| body := Some b |}] ]>
                           (threads st);
              console := console st;
              requests := requests sent |} entry)
  | Some e =>
      if bool_decide (status e = Some 403%Z)
         || bool_decide (status e = Some 404%Z)
      then post_or_skip gh o r n b st =
           (Normal (), with_line sent (permission_entry e o r n))
      else post_or_skip gh o r n b st = (Thrown e, sent)
  end.
Proof.
  cbn zeta.
  unfold post_or_skip, try_catch, mbind, M_bind, bind, createTriggerComment,
    createComment.
  rewrite send_with_requests.
  destruct (create_error gh n b) as [e|].
  - by destruct (_ || _).
  - eexists. apply put_line_run.
Qed.

Lemma PR_body_starts_with_marker
    (m baseSha headSha : string) (changedFiles : list string)
    (diffSnippet : string) (truncated : bool)
    (scopeMode scopeReason validationStatus : string)
    (validationChecks : list string) :
  JS.startsWith
    (ProtobufReview.buildCommentBody m baseSha headSha changedFiles
       diffSnippet truncated scopeMode scopeReason validationStatus
       validationChecks) m = true.
Proof. unfold ProtobufReview.buildCommentBody. cbv zeta. apply startsWith_app. Qed.

Lemma GD_body_starts_with_marker
    (m baseSha headSha : string) (changedFiles : list string)
    (diffSnippet : string) (truncated : bool)
    (scopeMode scopeReason : string) :
  JS.startsWith
    (GeneratedDiff.buildCommentBody m baseSha headSha changedFiles
       diffSnippet truncated scopeMode scopeReason) m = true.
Proof. unfold GeneratedDiff.buildCommentBody. cbv zeta. apply startsWith_app. Qed.

Lemma PR_main_run (gh : GitHub) (context : Context)
    (env fs : gmap string string) (st : State) :
  protobuf_run true true (ProtobufReview.marker (head_sha env))
    (ProtobufReview.main gh context env fs) gh context env st.
Proof.
  unfold protobuf_run, ProtobufReview.main. cbv zeta.
  destruct (JS.num_truthy (payload_number context)) eqn:Hn; cbn [negb].
  2:{ left. eexists. apply put_line_run. }
  destruct (_ || _).
  { left. eexists. apply put_line_run. }
  right. split; [done|].
  fold (pr_of context). fold (head_sha env).
  unfold mbind, M_bind, bind.
  change ProtobufReview.hasExistingTriggerComment with (guard_with true true).
  destruct (guard_with_total true true gh (owner (context_repo context))
              (repo (context_repo context)) (pr_of context)
              (ProtobufReview.marker (head_sha env)) st)
    as (posted & st1 & k & Hg & _).
  exists posted, st1. split; [done|]. rewrite Hg.
  destruct posted.
  { left. split; [by left|]. eexists. apply put_line_run. }
  destruct (dry_run_flag env) eqn:Hdry.
  { left. split; [by right|]. eexists. apply put_line_run. }
  right. split; [done|]. split; [done|].
  eexists. split; [|done]. apply PR_body_starts_with_marker.
Qed.

Lemma GD_main_run (gh : GitHub) (context : Context)
    (env fs : gmap string string) (st : State) :
  protobuf_run false false (GeneratedDiff.marker (head_sha env))
    (GeneratedDiff.main gh context env fs) gh context env st.
Proof.
  unfold protobuf_run, GeneratedDiff.main. cbv zeta.
  destruct (JS.num_truthy (payload_number context)) eqn:Hn; cbn [negb].
  2:{ left. eexists. apply put_line_run. }
  destruct (_ || _).
  { left. eexists. apply put_line_run. }
  destruct (negb (JS.truthy (JS.trim _))).
  { left. eexists. apply put_line_run. }
  right. split; [done|].
  fold (pr_of context). fold (head_sha env).
  unfold mbind, M_bind, bind.
  change GeneratedDiff.hasExistingTriggerComment with (guard_with false false).
  destruct (guard_with_total false false gh (owner (context_repo context))
              (repo (context_repo context)) (pr_of context)
              (GeneratedDiff.marker (head_sha env)) st)
    as (posted & st1 & k & Hg & _).
  exists posted, st1. split; [done|]. rewrite Hg.
  destruct posted.
  { left. split; [by left|]. eexists. apply put_line_run. }
  destruct (dry_run_flag env) eqn:Hdry.
  { left. split; [by right|]. eexists. apply put_line_run. }
  right. split; [done|]. split; [done|].
  eexists. split; [|done]. apply GD_body_starts_with_marker.
Qed.

(** *** LinkBot *)

Lemma bind_run {A B} (m : M A) (k : A → M B) (st : State) :
  (m ≫= k) st =
  match m st with
  | (Normal a, st') => k a st'
  | (Thrown e, st') => (Thrown e, st')
  end.
Proof. reflexivity. Qed.

Lemma sent_since_with_requests (st st' : State) (rs : list Request) :
  requests st' = requests st ++ rs → sent_since st st' = rs.
Proof. intros H. unfold sent_since. rewrite H. by rewrite drop_app_length. Qed.

Lemma on_error_run {A} (context : Context) (pn : option Z) (e : Error)
    (st : State) :
  ∃ st', @LinkBot.on_error A context pn e st = (Thrown e, st') ∧
         threads st' = threads st ∧ requests st' = requests st.
Proof. eexists. split; [reflexivity|]. done. Qed.

Lemma getLinkedOpenIssues_run (gh : GitHub) (o r : string) (n : Z)
    (st : State) :
  ∃ linked st',
    LinkBot.getLinkedOpenIssues gh o r n st = (Normal linked, st') ∧
    threads st' = threads st ∧
    requests st' = requests st ++ [Graphql o r n].
Proof.
  unfold LinkBot.getLinkedOpenIssues, try_catch. rewrite bind_run.
  unfold graphqlClosingIssues. rewrite send_with_requests.
  destruct (graphql gh n) as [[|nodes]|e]; eauto.
Qed.

Lemma checkAlreadyCommented_run (gh : GitHub) (o r : string) (n : Z)
    (st : State) :
  LinkBot.checkAlreadyCommented gh o r n st =
  (match list_error gh n 0 with
   | Some e => Thrown e
   | None =>
       Normal (LinkBot.alreadyCommentedMissingIssue
                 (take (default_per_page gh) (comments_of st o r n)))
   end,
   with_requests st [ListComments o r n None 0]).
Proof.
  unfold LinkBot.checkAlreadyCommented. rewrite bind_run.
  unfold listComments. rewrite send_with_requests.
  destruct (list_error gh n 0); [done|].
  unfold page_of. by rewrite Nat.mul_0_l, drop_0.
Qed.

Lemma linkbot_process_run (gh : GitHub) (context : Context)
    (env : gmap string string) (pn : option Z) (st : State) :
  ∃ res st',
    LinkBot.process gh context env pn st = (res, st') ∧
    (quiet st st' ∨ linkbot_attempt gh context pn res st st').
Proof.
  unfold LinkBot.process. cbv zeta.
  set (o := owner (context_repo context)).
  set (r := repo (context_repo context)).
  destruct (JS.num_truthy pn) eqn:Hpn; cbn [negb].
  2:{ eexists _, _. split; [reflexivity|]. left. split; [done|].
      unfold sent_since. by rewrite drop_all. }
  destruct pn as [n|]; [|done]. change (default 0%Z (Some n)) with n.
  rewrite bind_run, console_log_run.
  set (st0 := with_line st _).
  assert (threads st0 = threads st ∧ requests st0 = requests st) as [Ht0 Hr0]
    by done.
  match goal with
  | |- context [mbind ?k ?m st0] => set (K := k); set (fetch := m)
  end.
  assert (∀ prData st1 pre1,
            threads st1 = threads st →
            requests st1 = requests st ++ pre1 →
            existsb is_create pre1 = false →
            ∃ res st',
              K prData st1 = (res, st') ∧
              (quiet st st' ∨
               linkbot_attempt gh context (Some n) res st st')) as Hrest.
  2:{ rewrite bind_run. subst fetch.
      destruct (payload context) as [p|].
      - destruct (pull_request p) as [pr|].
        + apply (Hrest pr st0 []); [done| |done]. by rewrite app_nil_r.
        + unfold pullsGet. rewrite send_with_requests.
          destruct (pulls_get gh n) as [pr|e].
          * by apply (Hrest pr _ [PullsGet o r n]).
          * eexists _, _. split; [done|]. left. split; [done|].
            by rewrite (sent_since_with_requests st _ [PullsGet o r n]).
      - eexists _, _. split; [reflexivity|]. left. split; [done|].
        rewrite (sent_since_with_requests st _ []); [done|].
        by rewrite app_nil_r. }
  clear fetch. subst K. cbv beta. intros prData st1 pre1 Ht1 Hr1 Hpre1.
  destruct (LinkBot.isBotAuthor _ _).
  { rewrite console_log_run. eexists _, _. split; [done|]. left.
    split; [done|].
    by rewrite (sent_since_with_requests st _ pre1) by exact Hr1. }
  rewrite bind_run, checkAlreadyCommented_run.
  assert (comments_of st1 o r n = comments_of st o r n) as ->
    by (unfold comments_of; by rewrite Ht1).
  destruct (list_error gh n 0) as [e|] eqn:Hlist.
  { eexists _, _. split; [done|]. left. split; [done|].
    rewrite (sent_since_with_requests st _ (pre1 ++ [ListComments o r n None 0])).
    - rewrite existsb_app, Hpre1. done.
    - cbn. rewrite Hr1. by rewrite <- app_assoc. }
  set (st2 := with_requests st1 _).
  rewrite bind_run.
  destruct (getLinkedOpenIssues_run gh o r n st2)
    as (linked & st3 & -> & Ht3 & Hr3).
  assert (requests st3 =
          requests st ++ pre1 ++ [ListComments o r n None 0; Graphql o r n])
    as Hr3'.
  { rewrite Hr3. cbn. rewrite Hr1. by rewrite <- !app_assoc. }
  assert (existsb is_create
            (pre1 ++ [ListComments o r n None 0; Graphql o r n]) = false)
    as Hpre3 by (by rewrite existsb_app, Hpre1).
  assert (threads st3 = threads st) as Ht3' by (by rewrite Ht3).
  destruct linked as [linked|].
  2:{ rewrite console_log_run. eexists _, _. split; [done|]. left.
      split; [done|]. by rewrite (sent_since_with_requests st _
        (pre1 ++ [ListComments o r n None 0; Graphql o r n])) by exact Hr3'. }
  destruct (length linked =? 0).
  2:{ rewrite console_log_run. eexists _, _. split; [done|]. left.
      split; [done|]. by rewrite (sent_since_with_requests st _
        (pre1 ++ [ListComments o r n None 0; Graphql o r n])) by exact Hr3'. }
  destruct (LinkBot.alreadyCommentedMissingIssue _) eqn:Halready.
  { rewrite console_log_run. eexists _, _. split; [done|]. left.
    split; [done|]. by rewrite (sent_since_with_requests st _
        (pre1 ++ [ListComments o r n None 0; Graphql o r n])) by exact Hr3'. }
  destruct (bool_decide _).
  { rewrite !bind_run, !console_log_run. eexists _, _. split; [done|]. left.
    split; [done|]. by rewrite (sent_since_with_requests st _
        (pre1 ++ [ListComments o r n None 0; Graphql o r n])) by exact Hr3'. }
  rewrite bind_run. unfold createComment. rewrite send_with_requests.
  set (b := LinkBot.commentBody _ o r).
  destruct (create_error gh n b) as [e|] eqn:Hcreate.
  - eexists _, _. split; [done|]. right.
    exists n, (default "there" (user prData ≫= λ u : User, login u)),
      (pre1 ++ [ListComments o r n None 0; Graphql o r n]).
    split; [done|]. split; [done|]. split; [done|].
    cbv zeta. fold o. fold r. fold b. rewrite Hcreate.
    split; [|split; [exact Hpre3|done]].
    apply sent_since_with_requests. cbn. rewrite Hr3'.
    by rewrite <- !app_assoc.
  - rewrite console_log_run. eexists _, _. split; [done|]. right.
    exists n, (default "there" (user prData ≫= λ u : User, login u)),
      (pre1 ++ [ListComments o r n None 0; Graphql o r n]).
    split; [done|]. split; [done|]. split; [done|].
    cbv zeta. fold o. fold r. fold b. rewrite Hcreate.
    split; [|split; [exact Hpre3|]].
    + apply sent_since_with_requests. cbn. rewrite Hr3'.
      by rewrite <- !app_assoc.
    + split; [done|]. cbn. rewrite Ht3'.
      unfold comments_of. by rewrite Ht3'.
Qed.

Lemma linkbot_main_run (gh : GitHub) (context : Context)
    (env : gmap string string) (st : State) :
  ∃ res st',
    LinkBot.main gh context env st = (res, st') ∧
    (quiet st st' ∨
     linkbot_attempt gh context (linkbot_pr_number context env) res st st').
Proof.
  assert (∀ pn, ∃ res st',
            try_catch (LinkBot.process gh context env pn)
                      (LinkBot.on_error context pn) st = (res, st') ∧
            (quiet st st' ∨ linkbot_attempt gh context pn res st st'))
    as Hprocess.
  { intros pn.
    destruct (linkbot_process_run gh context env pn st)
      as (res & st' & Hrun & Hcase).
    unfold try_catch. rewrite Hrun. destruct res as [[]|e]; [eauto|].
    destruct (@on_error_run unit context pn e st') as (st'' & -> & Ht & Hr).
    exists (Thrown e), st''. split; [done|].
    unfold quiet, linkbot_attempt, sent_since in *. by rewrite Ht, Hr. }
  unfold LinkBot.main. rewrite bind_run.
  unfold linkbot_pr_number, LinkBot.resolvePrNumber, try_catch. cbv zeta.
  destruct (JS.num_truthy (JS.Number (env !! "PR_NUMBER"))).
  { apply Hprocess. }
  unfold payload_number.
  destruct (payload context) as [p|]; cbn -[LinkBot.process].
  - specialize (Hprocess (number <$> pull_request p)).
    by destruct (pull_request p).
  - eexists _, _. split; [done|]. left. split; [done|].
    unfold sent_since. cbn. by rewrite drop_all.
Qed.


Lemma endsWith_bot (name : string) : JS.endsWith (name +:+ "[bot]") "[bot]" = true.
Proof. apply endsWith_app. Qed.

(** A bot author: LinkBot stops before any listing, query or post. *)
Lemma linkbot_bot_author (gh : GitHub) (context : Context)
    (env : gmap string string) (st : State) (n : Z) (pr : PullRequest) :
  linkbot_pr_number context env = Some n → n ≠ 0%Z →
  linkbot_pr_data gh context n = Some pr →
  LinkBot.isBotAuthor (user pr ≫= λ u, type u) (user pr ≫= λ u, login u)
    = true →
  ∃ st',
    LinkBot.main gh context env st = (Normal (), st') ∧
    threads st' = threads st ∧
    (sent_since st st' = [] ∨
     sent_since st st' =
       [PullsGet (owner (context_repo context)) (repo (context_repo context))
          n]).
Proof.
  intros Hpn Hn Hdata Hbot.
  assert (JS.num_truthy (Some n) = true) as Htruthy.
  { cbn. by destruct (Z.eqb_spec n 0). }
  assert (∃ p, payload context = Some p) as [p Hp].
  { unfold linkbot_pr_data in Hdata. destruct (payload context); [eauto|done]. }
  assert (try_catch (LinkBot.resolvePrNumber context env)
            (LinkBot.on_error context None) st = (Normal (Some n), st))
    as Hresolve.
  { unfold linkbot_pr_number, payload_number in Hpn. cbv zeta in Hpn.
    unfold LinkBot.resolvePrNumber, try_catch.
    destruct (JS.num_truthy (JS.Number (env !! "PR_NUMBER")));
      [by rewrite Hpn|].
    rewrite Hp in *. cbn in *. by destruct (pull_request p); simplify_eq/=. }
  unfold LinkBot.main. rewrite bind_run, Hresolve.
  unfold try_catch, LinkBot.process. rewrite Htruthy. cbn [negb].
  change (default 0%Z (Some n)) with n. cbv zeta.
  rewrite bind_run, console_log_run, bind_run.
  unfold linkbot_pr_data in Hdata. rewrite Hp in *. cbn in Hdata.
  destruct (pull_request p) as [pr'|].
  - injection Hdata as ->. cbn [mret M_ret ret]. rewrite Hbot.
    rewrite console_log_run. eexists. split; [done|]. split; [done|].
    left. unfold sent_since. cbn. by rewrite drop_all.
  - unfold pullsGet. destruct (pulls_get gh n) as [pr'|]; [|done].
    injection Hdata as ->. rewrite Hbot.
    rewrite console_log_run. eexists. split; [done|]. split; [done|].
    right. unfold sent_since. cbn. by rewrite drop_app_length.
Qed.

(** *** The protobuf scripts *)

Lemma listing_requests_not_create (o r : string) (n : Z) (pages : list nat) :
  existsb is_create (ListComments o r n (Some 100) <$> pages) = false.
Proof. by induction pages. Qed.

Lemma protobuf_run_cases (on_cap on_error : bool) (m : string)
    (main : M unit) (gh : GitHub) (context : Context)
    (env : gmap string string) (st : State) :
  protobuf_run on_cap on_error m main gh context env st →
  ∃ res st',
    main st = (res, st') ∧
    ((res = Normal () ∧ quiet st st') ∨
     protobuf_attempt on_cap on_error m gh context res st st').
Proof.
  unfold protobuf_run. cbv zeta.
  set (o := owner (context_repo context)).
  set (r := repo (context_repo context)).
  set (n := pr_of context).
  intros [[entry ->]|(_ & posted & stg & Hg & Hcase)].
  { eexists _, _. split; [done|]. left. split; [done|]. split; [done|].
    unfold sent_since. cbn. by rewrite drop_all. }
  destruct (guard_with_total on_cap on_error gh o r n m st)
    as (posted' & stg' & k & Hg' & Ht & Hk & Hr).
  rewrite Hg in Hg'. injection Hg' as <- <-.
  destruct Hcase as [[_ [entry ->]]|(-> & _ & b & Hb & ->)].
  { eexists _, _. split; [done|]. left. split; [done|]. split; [done|].
    rewrite (sent_since_with_requests st _
               (ListComments o r n (Some 100) <$> seq 0 k)) by exact Hr.
    apply listing_requests_not_create. }
  pose proof (post_or_skip_run gh o r n b stg) as Hpost. cbv zeta in Hpost.
  assert (comments_of stg o r n = comments_of st o r n) as Hc
    by (unfold comments_of; by rewrite Ht).
  destruct (create_error gh n b) as [e|] eqn:Hcreate.
  - destruct (_ || _) eqn:Hstatus; rewrite Hpost.
    + eexists _, _. split; [done|]. right.
      exists stg, b, (ListComments o r n (Some 100) <$> seq 0 k).
      split; [done|]. split; [done|].
      split; [apply sent_since_with_requests; cbn; by rewrite Hr, app_assoc|].
      split; [apply listing_requests_not_create|].
      fold o r n. rewrite Hcreate, Hstatus. split; [done|].
      split; [done|]. cbn. by rewrite last_snoc.
    + eexists _, _. split; [done|]. right.
      exists stg, b, (ListComments o r n (Some 100) <$> seq 0 k).
      split; [done|]. split; [done|].
      split; [apply sent_since_with_requests; cbn; by rewrite Hr, app_assoc|].
      split; [apply listing_requests_not_create|].
      fold o r n. rewrite Hcreate, Hstatus. done.
  - destruct Hpost as [entry ->].
    eexists _, _. split; [done|]. right.
    exists stg, b, (ListComments o r n (Some 100) <$> seq 0 k).
    split; [done|]. split; [done|].
    split; [apply sent_since_with_requests; cbn; by rewrite Hr, app_assoc|].
    split; [apply listing_requests_not_create|].
    fold o r n. rewrite Hcreate. split; [done|]. cbn. by rewrite Ht, Hc.
Qed.








Lemma LinkBot_body_starts_with_marker (author o r : string) :
  JS.startsWith (LinkBot.commentBody author o r)
    LinkBot.LINKBOT_MISSING_ISSUE_MARKER = true.
Proof.
  unfold LinkBot.commentBody. cbn [JS.join].
  rewrite !app_assoc_str. apply startsWith_app.
Qed.

Lemma created_is_last (o r : string) (n : Z) (b : string)
    (pre : list Request) (o' r' : string) (n' : Z) (b' : string) :
  existsb is_create pre = false →
  CreateComment o r n b ∈ pre ++ [CreateComment o' r' n' b'] →
  o' = o ∧ r' = r ∧ n' = n ∧ b' = b.
Proof.
  intros Hpre Hin. apply elem_of_app in Hin as [Hin|Hin].
  - assert (existsb is_create pre = true); [|congruence].
    apply existsb_exists. exists (CreateComment o r n b).
    split; [by apply list_elem_of_In|done].
  - apply list_elem_of_singleton in Hin. by injection Hin as -> -> -> ->.
Qed.

Lemma quiet_creates_nothing (st st' : State) (o r : string) (n : Z)
    (b : string) :
  quiet st st' → CreateComment o r n b ∉ sent_since st st'.
Proof.
  intros [_ Hq] Hin.
  assert (existsb is_create (sent_since st st') = true); [|congruence].
  apply existsb_exists. exists (CreateComment o r n b).
  split; [by apply list_elem_of_In|done].
Qed.


(** * The claims *)







(** C2.  Each guard applies one fallback to both uncertain outcomes.  The
    protobuf review trigger answers [true] (already posted) when the listing
    throws and when the cap of 500 scanned comments is reached without the
    marker; the generated-diff trigger answers [false] in both situations.
    In both scripts the error is caught, written to the console together
    with owner, repository and issue number, and never thrown to the
    caller. *)
Theorem guard_fallback_policy (gh : GitHub) (o r : string) (n : Z)
    (marker : string) (st : State) :
  let l := comments_of st o r n in
  let closed := ProtobufReview.hasExistingTriggerComment gh o r n marker in
  let open := GeneratedDiff.hasExistingTriggerComment gh o r n marker in
  (∃ b st', closed st = (Normal b, st')) ∧
  (∃ b st', open st = (Normal b, st')) ∧
  (∀ k e,
     k < page_count 100 l → k * 100 < MAX_COMMENTS_TO_SCAN →
     (∀ p, p < k → list_error gh n p = None) →
     list_error gh n k = Some e →
     existsb (has_marker marker) (take (k * 100) l) = false →
     (∃ st', closed st = (Normal true, st') ∧
             last (console st') = Some (guard_failure_entry e o r n)) ∧
     (∃ st', open st = (Normal false, st') ∧
             last (console st') = Some (guard_failure_entry e o r n)) ∧
     detail (guard_failure_entry e o r n) =
       [("message", VStr (message e)); ("status", opt_num (status e));
        ("owner", VStr o); ("repo", VStr r); ("issueNumber", VNum n)]) ∧
  (listing_succeeds gh n →
   MAX_COMMENTS_TO_SCAN ≤ length l →
   existsb (has_marker marker) (take MAX_COMMENTS_TO_SCAN l) = false →
   (∃ st', closed st = (Normal true, st')) ∧
   (∃ st', open st = (Normal false, st'))).
Proof.
  cbv zeta. destruct guard_instances as [-> ->].
  split.
  { destruct (guard_with_total true true gh o r n marker st)
      as (b & st' & _ & H & _). eauto. }
  split.
  { destruct (guard_with_total false false gh o r n marker st)
      as (b & st' & _ & H & _). eauto. }
  split.
  - intros k e Hk Hcap Hbefore Hfail Hnone.
    destruct (guard_with_listing_fails true true gh o r n marker st k e)
      as (st1 & H1 & Hl1 & _); try done.
    destruct (guard_with_listing_fails false false gh o r n marker st k e)
      as (st2 & H2 & Hl2 & _); try done.
    eauto 10.
  - intros Hok Hlen Hnone.
    destruct (guard_with_listing_ok true true gh o r n marker st Hok)
      as (st1 & H1).
    destruct (guard_with_listing_ok false false gh o r n marker st Hok)
      as (st2 & H2).
    unfold scan_answer in *. rewrite Hnone in *.
    destruct (Nat.leb_spec MAX_COMMENTS_TO_SCAN (length (comments_of st o r n)));
      [eauto|lia].
Qed.

Lemma guard_fallback_policy_witness :
  (∃ st', ProtobufReview.hasExistingTriggerComment (listing_down server_error)
            "hiero" "sdk" 7%Z (ProtobufReview.marker "h1")
            (state_with (chatter 3)) = (Normal true, st') ∧
          last (console st') =
            Some (guard_failure_entry server_error "hiero" "sdk" 7%Z)) ∧
  (∃ st', GeneratedDiff.hasExistingTriggerComment quiet_service
            "hiero" "sdk" 7%Z (GeneratedDiff.marker "h1")
            (state_with (chatter 500)) = (Normal false, st')).
Proof.
  split.
  - apply (guard_fallback_policy (listing_down server_error) "hiero" "sdk" 7%Z
             (ProtobufReview.marker "h1") (state_with (chatter 3)))
      with (k := 0).
    + vm_compute. lia.
    + vm_compute. lia.
    + intros p Hp. lia.
    + reflexivity.
    + reflexivity.
  - apply (guard_fallback_policy quiet_service "hiero" "sdk" 7%Z
             (GeneratedDiff.marker "h1") (state_with (chatter 500))).
    + intros p. reflexivity.
    + vm_compute. lia.
    + vm_compute. reflexivity.
Defined.










Lemma PR_marker_inj (h1 h2 : string) :
  ProtobufReview.marker h1 = ProtobufReview.marker h2 → h1 = h2.
Proof.
  unfold ProtobufReview.marker. intros H.
  do 2 apply app_inv_head_str in H. by apply app_inv_tail_str in H.
Qed.

(** C8, amended.  Every body posted by one of the two protobuf scripts
    begins with the marker [MARKER_PREFIX], a space, the head revision and
    [-->]; within these scripts the marker determines the head revision,
    and both scripts use the same marker.  Every body posted by LinkBot
    begins with the constant marker [<!-- LinkBot Missing Issue -->], which
    names no head revision. *)
Theorem marker_at_start (gh : GitHub) (context : Context)
    (env fs : gmap string string) (st : State) :
  (∀ h, ProtobufReview.marker h
        = "<!-- CodeRabbit Protobuf Review Trigger:" +:+ " " +:+ h +:+ " -->" ∧
        GeneratedDiff.marker h = ProtobufReview.marker h) ∧
  (∀ h1 h2, ProtobufReview.marker h1 = ProtobufReview.marker h2 → h1 = h2) ∧
  (∀ baseSha files diff cut mode reason status checks,
     carries_revision_marker
       (λ h, ProtobufReview.buildCommentBody (ProtobufReview.marker h)
               baseSha h files diff cut mode reason status checks)) ∧
  (∀ baseSha files diff cut mode reason,
     carries_revision_marker
       (λ h, GeneratedDiff.buildCommentBody (GeneratedDiff.marker h)
               baseSha h files diff cut mode reason)) ∧
  (∀ res st' o r n b,
     ProtobufReview.main gh context env fs st = (res, st') →
     CreateComment o r n b ∈ sent_since st st' →
     JS.startsWith b (ProtobufReview.marker (head_sha env)) = true) ∧
  (∀ res st' o r n b,
     GeneratedDiff.main gh context env fs st = (res, st') →
     CreateComment o r n b ∈ sent_since st st' →
     JS.startsWith b (GeneratedDiff.marker (head_sha env)) = true) ∧
  (∀ res st' o r n b,
     LinkBot.main gh context env st = (res, st') →
     CreateComment o r n b ∈ sent_since st st' →
     JS.startsWith b LinkBot.LINKBOT_MISSING_ISSUE_MARKER = true) ∧
  LinkBot.LINKBOT_MISSING_ISSUE_MARKER = "<!-- LinkBot Missing Issue -->".
Proof.
  split; [done|]. split; [apply PR_marker_inj|].
  split.
  { intros. exists ProtobufReview.MARKER_PREFIX. intros h.
    apply PR_body_starts_with_marker. }
  split.
  { intros. exists GeneratedDiff.MARKER_PREFIX. intros h.
    apply GD_body_starts_with_marker. }
  assert (∀ on_cap on_error m main,
            protobuf_run on_cap on_error m main gh context env st →
            ∀ res st' o r n b,
              main st = (res, st') →
              CreateComment o r n b ∈ sent_since st st' →
              JS.startsWith b m = true) as Hproto.
  { intros on_cap on_error m main Hrun res st' o r n b Hmain Hin.
    destruct (protobuf_run_cases _ _ _ _ _ _ _ _ Hrun)
      as (res' & st'' & Hmain' & Hcase).
    rewrite Hmain in Hmain'. injection Hmain' as <- <-.
    unfold protobuf_attempt in Hcase. cbv zeta in Hcase.
    destruct Hcase as [[_ Hq]|(stg & b' & pre & _ & Hb & Hsent & Hpre & _)].
    { by destruct (quiet_creates_nothing _ _ o r n b Hq). }
    rewrite Hsent in Hin.
    by apply created_is_last in Hin as (_ & _ & _ & ->). }
  split; [apply (Hproto _ _ _ _ (PR_main_run gh context env fs st))|].
  split; [apply (Hproto _ _ _ _ (GD_main_run gh context env fs st))|].
  split; [|done].
  intros res st' o r n b Hmain Hin.
  destruct (linkbot_main_run gh context env st)
    as (res' & st'' & Hmain' & Hcase).
  rewrite Hmain in Hmain'. injection Hmain' as <- <-.
  unfold linkbot_attempt in Hcase. cbv zeta in Hcase.
  destruct Hcase as [Hq|(n' & author & pre & _ & _ & _ & Hsent & Hpre & _)].
  { by destruct (quiet_creates_nothing _ _ o r n b Hq). }
  rewrite Hsent in Hin.
  apply created_is_last in Hin as (_ & _ & _ & <-); [|done].
  apply LinkBot_body_starts_with_marker.
Qed.

Lemma marker_at_start_witness :
  JS.startsWith
    (LinkBot.commentBody "alice" "hiero" "sdk")
    LinkBot.LINKBOT_MISSING_ISSUE_MARKER = true.
Proof.
  pose proof (marker_at_start quiet_service sample_context ∅ sample_fs
                (state_with [])) as (_ & _ & _ & _ & _ & _ & H & _).
  apply (H _ _ "hiero" "sdk" 7%Z _ (surjective_pairing _)).
  apply list_elem_of_In. vm_compute. right. right. left. reflexivity.
Defined.

(** C8 as stated fails for LinkBot: its body does not vary with the head
    revision, so no prefix makes it begin with [<prefix> <head> -->] for
    every head revision. *)
Lemma linkbot_marker_has_no_revision :
  ¬ carries_revision_marker (λ _, LinkBot.commentBody "alice" "hiero" "sdk").
Proof.
  intros [prefix H].
  pose proof (H "a") as Ha. pose proof (H "b") as Hb.
  apply startsWith_spec in Ha as [ra Ha].
  apply startsWith_spec in Hb as [rb Hb].
  rewrite Ha in Hb. rewrite !app_assoc_str in Hb.
  apply app_inv_head_str in Hb. discriminate Hb.
Qed.

(** C9.  When the author of the PR is a bot (account type [Bot], or a login
    that ends in [[bot]]) LinkBot writes one line to the console and
    returns normally: it lists no comments, does not query the linked issues
    and creates no comment, whatever the link state.  The only request it
    may have sent is the fetch of the PR data. *)
Theorem linkbot_skips_bots (gh : GitHub) (context : Context)
    (env : gmap string string) (st : State) (n : Z) (pr : PullRequest)
    (u : User) :
  linkbot_pr_number context env = Some n → n ≠ 0%Z →
  linkbot_pr_data gh context n = Some pr →
  user pr = Some u →
  (type u = Some "Bot" ∨ ∃ name, login u = Some (name +:+ "[bot]")) →
  ∃ st',
    LinkBot.main gh context env st = (Normal (), st') ∧
    threads st' = threads st ∧
    (sent_since st st' = [] ∨
     sent_since st st' =
       [PullsGet (owner (context_repo context)) (repo (context_repo context))
          n]).
Proof.
  intros Hn Hn0 Hdata Hu Hbot.
  apply (linkbot_bot_author gh context env st n pr Hn Hn0 Hdata).
  rewrite Hu. cbn. unfold LinkBot.isBotAuthor.
  destruct Hbot as [->|[name ->]].
  - done.
  - rewrite endsWith_bot. apply orb_true_r.
Qed.

Lemma linkbot_skips_bots_witness :
  ∃ st',
    LinkBot.main quiet_service
      (context_of (Some (pr_by "User" "renovate[bot]"))) ∅ (state_with [])
    = (Normal (), st') ∧
    threads st' = threads (state_with []) ∧
    (sent_since (state_with []) st' = [] ∨
     sent_since (state_with []) st' = [PullsGet "hiero" "sdk" 7%Z]).
Proof.
  apply (linkbot_skips_bots quiet_service
           (context_of (Some (pr_by "User" "renovate[bot]"))) ∅
           (state_with []) 7%Z (pr_by "User" "renovate[bot]")
           {| type := Some "User"; login := Some "renovate[bot]" |}).
  - reflexivity.
  - lia.
  - reflexivity.
  - reflexivity.
  - right. exists "renovate". reflexivity.
Defined.



(** * Further properties *)

(** ** [truncateDiff]: what is emitted *)

(** X1.  The excerpt is always a prefix of the diff, at most [maxChars]
    characters long, followed by the truncation note exactly when the diff
    is longer than [maxChars]; so the emitted text never exceeds
    [maxChars] plus the length of the note. *)
Theorem truncateDiff_prefix_bound (diffText : string) (maxChars : nat) :
  let t := truncateDiff diffText maxChars in
  (truncated t = true ↔ maxChars < String.length diffText) ∧
  (∃ kept rest,
     diffText = kept +:+ rest ∧
     String.length kept ≤ maxChars ∧
     text t = (if truncated t then kept +:+ TRUNCATION_NOTE else kept)) ∧
  String.length (text t) ≤ maxChars + String.length TRUNCATION_NOTE.
Proof.
  cbv zeta.
  destruct (Nat.le_gt_cases (String.length diffText) maxChars) as [Hle|Hgt].
  - rewrite truncateDiff_short by done. cbn [truncated text].
    split; [split; [done|lia]|]. split; [|lia].
    exists diffText, "". by rewrite app_empty_r.
  - destruct (truncateDiff_long diffText maxChars Hgt)
      as (-> & kept & -> & Hcase).
    split; [done|].
    assert (String.length kept ≤ maxChars ∧ ∃ rest, diffText = kept +:+ rest)
      as [Hlen [rest Hrest]].
    { destruct Hcase as [(j & Hj & -> & _)|[-> _]];
        (split; [rewrite length_slice; lia|apply slice_is_prefix]). }
    split; [by exists kept, rest|]. rewrite length_app_str. lia.
Qed.

(** ** [parseUniqueLines]: what its entries look like, and reading them back *)

Lemma startsWith_empty (s : string) : JS.startsWith s "" = true.
Proof. by destruct s. Qed.

Lemma includes_char_cons (c d : ascii) (s : string) :
  JS.includes (String c s) (String d "") =
  Ascii.eqb d c || JS.includes s (String d "").
Proof.
  cbn [JS.includes JS.startsWith]. by rewrite startsWith_empty, andb_true_r.
Qed.

Lemma includes_char_empty (d : ascii) : JS.includes "" (String d "") = false.
Proof. reflexivity. Qed.

Lemma includes_char_app (d : ascii) (a b : string) :
  JS.includes (a +:+ b) (String d "") =
  JS.includes a (String d "") || JS.includes b (String d "").
Proof.
  induction a as [|c a IH]; [done|].
  rewrite app_cons, !includes_char_cons, IH. by rewrite orb_assoc.
Qed.

Lemma cons_head_nonempty (c : ascii) (ps : list string) :
  JS.cons_head c ps ≠ [].
Proof. by destruct ps. Qed.

Lemma split_lines_nonempty (s : string) : JS.split_lines s ≠ [].
Proof.
  destruct s as [|c rest]; cbn [JS.split_lines]; [done|].
  destruct (Ascii.eqb c JS.LF); [done|].
  destruct rest as [|d rest']; [apply cons_head_nonempty|].
  destruct (_ && _); [done|apply cons_head_nonempty].
Qed.

(** A piece of the split holds no line feed, and no character that the
    text does not hold. *)
Lemma split_lines_pieces (d : ascii) (s : string) :
  d = JS.LF ∨ JS.includes s (String d "") = false →
  ∀ p, p ∈ JS.split_lines s → JS.includes p (String d "") = false.
Proof.
  remember (String.length s) as n eqn:Hn. revert s Hn.
  induction n as [n IH] using lt_wf_ind. intros s -> Hd p Hp.
  assert (∀ s', String.length s' < String.length s →
                (d = JS.LF ∨ JS.includes s (String d "") = false) →
                (JS.includes s (String d "") = false →
                 JS.includes s' (String d "") = false) →
                ∀ p, p ∈ JS.split_lines s' →
                     JS.includes p (String d "") = false) as Hrec.
  { intros s' Hlen Hd' Hsub. apply (IH _ Hlen s' eq_refl).
    destruct Hd' as [->|Hs]; [by left|right; by apply Hsub]. }
  destruct s as [|c rest]; cbn [JS.split_lines] in Hp.
  { apply list_elem_of_singleton in Hp as ->. done. }
  assert (JS.includes (String c rest) (String d "") = false →
          Ascii.eqb d c = false ∧ JS.includes rest (String d "") = false)
    as Hcons.
  { rewrite includes_char_cons. apply orb_false_iff. }
  destruct (Ascii.eqb c JS.LF) eqn:Hc.
  { apply elem_of_cons in Hp as [->|Hp]; [done|].
    apply (Hrec rest); [simpl; lia|done| |done].
    intros H. by apply Hcons in H as [_ ?]. }
  assert (Ascii.eqb d c = false) as Hdc.
  { destruct Hd as [->|Hs]; [|by apply Hcons in Hs as [? _]].
    rewrite Ascii.eqb_sym. done. }
  assert (∀ p, p ∈ JS.cons_head c (JS.split_lines rest) →
               JS.includes p (String d "") = false) as Hhead.
  { intros q Hq. unfold JS.cons_head in Hq.
    destruct (JS.split_lines rest) as [|p0 ps] eqn:Hsplit.
    { by destruct (split_lines_nonempty rest). }
    assert (∀ q, q ∈ p0 :: ps → JS.includes q (String d "") = false) as Hps.
    { rewrite <- Hsplit. apply (Hrec rest); [simpl; lia|done|].
      intros H. by apply Hcons in H as [_ ?]. }
    apply elem_of_cons in Hq as [->|Hq].
    - rewrite includes_char_cons, Hdc. apply Hps, list_elem_of_here.
    - apply Hps. by apply list_elem_of_further. }
  destruct rest as [|e rest']; [by apply Hhead|].
  destruct (Ascii.eqb c JS.CR && Ascii.eqb e JS.LF); [|by apply Hhead].
  apply elem_of_cons in Hp as [->|Hp]; [done|].
  apply (Hrec rest'); [simpl; lia|done| |done].
  intros H. apply Hcons in H as [_ H].
  rewrite includes_char_cons in H. by apply orb_false_iff in H as [_ H].
Qed.

Lemma trimStart_suffix (s : string) : ∃ a, s = a +:+ JS.trimStart s.
Proof.
  induction s as [|c s [a IH]]; [by exists ""|]. cbn [JS.trimStart].
  destruct (JS.is_white c); [|by exists ""].
  exists (String c a). rewrite app_cons. by rewrite <- IH.
Qed.

Lemma trimEnd_prefix (s : string) : ∃ b, s = JS.trimEnd s +:+ b.
Proof.
  induction s as [|c s [b IH]]; [by exists ""|]. cbn [JS.trimEnd].
  destruct (JS.trimEnd s) as [|d t] eqn:Ht.
  - destruct (JS.is_white c).
    + by exists (String c s).
    + exists b. rewrite app_cons. by rewrite <- IH.
  - exists b. rewrite app_cons. by rewrite <- IH.
Qed.

(** [trim] only removes: the trimmed text sits inside the original. *)
Lemma trim_inside (s : string) : ∃ a b, s = a +:+ JS.trim s +:+ b.
Proof.
  unfold JS.trim. destruct (trimStart_suffix s) as [a Ha].
  destruct (trimEnd_prefix (JS.trimStart s)) as [b Hb].
  exists a, b. by rewrite <- Hb.
Qed.

Lemma trim_keeps_absent (d : ascii) (s : string) :
  JS.includes s (String d "") = false →
  JS.includes (JS.trim s) (String d "") = false.
Proof.
  destruct (trim_inside s) as (a & b & Hs). rewrite Hs at 1.
  rewrite !includes_char_app. intros H.
  apply orb_false_iff in H as [_ H]. by apply orb_false_iff in H as [H _].
Qed.

Lemma endsWith_spec (s p : string) :
  JS.endsWith s p = true → ∃ a, s = a +:+ p.
Proof.
  induction s as [|c s IH]; cbn [JS.endsWith]; intros H.
  - rewrite orb_false_r in H. apply String.eqb_eq in H as <-. by exists "".
  - apply orb_true_iff in H as [H|H].
    + apply String.eqb_eq in H as <-. by exists "".
    + destruct (IH H) as [a ->]. by exists (String c a).
Qed.

Lemma trimEnd_drops_last (a : string) (c : ascii) :
  JS.is_white c = true → JS.trimEnd (a +:+ String c "") ≠ a +:+ String c "".
Proof.
  intros Hc. induction a as [|b a IH].
  - rewrite app_empty_l. cbn [JS.trimEnd]. by rewrite Hc.
  - rewrite app_cons. cbn [JS.trimEnd].
    destruct (JS.trimEnd (a +:+ String c "")) as [|d t] eqn:Ht.
    + destruct (JS.is_white b); [done|]. intros [= H]. by destruct a.
    + intros [= H]. by rewrite H in IH.
Qed.

Lemma trimStart_length (s : string) :
  String.length (JS.trimStart s) ≤ String.length s.
Proof.
  induction s as [|c s IH]; [done|]. cbn [JS.trimStart].
  destruct (JS.is_white c); simpl; lia.
Qed.

Lemma trimEnd_length (s : string) :
  String.length (JS.trimEnd s) ≤ String.length s.
Proof.
  induction s as [|c s IH]; [done|]. cbn [JS.trimEnd].
  destruct (JS.trimEnd s); [destruct (JS.is_white c)|]; simpl in *; lia.
Qed.

(** A text that [trim] leaves alone does not end in a carriage return. *)
Lemma trimmed_no_final_CR (l : string) :
  JS.trim l = l → JS.endsWith l JS.cr = false.
Proof.
  intros Hl. destruct (JS.endsWith l JS.cr) eqn:He; [|done].
  apply endsWith_spec in He as [a Ha].
  assert (JS.trimStart l = l) as Hs.
  { destruct (trimStart_suffix l) as [x Hx].
    pose proof (trimStart_length l) as H1.
    pose proof (trimEnd_length (JS.trimStart l)) as H2.
    unfold JS.trim in Hl. rewrite Hl in H2.
    destruct x as [|c x]; [done|].
    apply (f_equal String.length) in Hx. rewrite length_app_str in Hx.
    simpl in Hx. lia. }
  unfold JS.trim in Hl. rewrite Hs, Ha in Hl.
  by apply trimEnd_drops_last in Hl.
Qed.

Lemma split_lines_join (ls : list string) :
  ls ≠ [] →
  (∀ l, l ∈ ls → JS.includes l JS.nl = false ∧ JS.endsWith l JS.cr = false) →
  JS.split_lines (JS.join JS.nl ls) = ls.
Proof.
  induction ls as [|x [|y ls] IH]; intros Hne Hall; [done| |].
  - cbn [JS.join]. apply split_lines_single, Hall, list_elem_of_here.
  - cbn [JS.join]. destruct (Hall x) as [Hx1 Hx2]; [apply list_elem_of_here|].
    rewrite split_lines_LF by done. f_equal. apply IH; [done|].
    intros l Hl. apply Hall. by apply list_elem_of_further.
Qed.

Lemma first_occurrences_distinct (seen : gset string) (l : list string) :
  NoDup l → (∀ x, x ∈ l → x ∉ seen) → first_occurrences seen l = l.
Proof.
  revert seen. induction l as [|x l IH]; intros seen Hnd Hseen; [done|].
  apply NoDup_cons in Hnd as [Hx Hnd]. cbn [first_occurrences].
  rewrite decide_False by (apply Hseen, list_elem_of_here). f_equal.
  apply IH; [done|]. intros y Hy. apply not_elem_of_union. split.
  - apply not_elem_of_singleton. by intros ->.
  - apply Hseen. by apply list_elem_of_further.
Qed.

Lemma trimmed_lines_join (ls : list string) :
  (∀ l, l ∈ ls → clean_entry l) → trimmed_lines (JS.join JS.nl ls) = ls.
Proof.
  intros Hall. unfold trimmed_lines.
  destruct ls as [|x ls]; [done|].
  rewrite split_lines_join; [|done|].
  2:{ intros l Hl. destruct (Hall l Hl) as (_ & Ht & Hn).
      split; [done|by apply trimmed_no_final_CR]. }
  induction (x :: ls) as [|y l IH]; [done|].
  cbn [fmap list_fmap]. rewrite filter_cons.
  destruct (Hall y) as (Hy1 & Hy2 & _); [apply list_elem_of_here|].
  rewrite Hy2, decide_True by done. f_equal. apply IH.
  intros z Hz. apply Hall. by apply list_elem_of_further.
Qed.

(** A list of distinct clean entries, written one per line, is read back
    as it is. *)
Lemma parseUniqueLines_reads_back (ls : list string) :
  NoDup ls → (∀ l, l ∈ ls → clean_entry l) →
  parseUniqueLines (JS.join JS.nl ls) = ls.
Proof.
  intros Hnd Hall. rewrite parseUniqueLines_first_occurrences.
  rewrite trimmed_lines_join by done.
  apply first_occurrences_distinct; [done|]. intros. apply not_elem_of_empty.
Qed.

Lemma parseUniqueLines_clean (text l : string) :
  l ∈ parseUniqueLines text → clean_entry l.
Proof.
  rewrite parseUniqueLines_first_occurrences, first_occurrences_elem.
  intros [Hl _]. unfold trimmed_lines in Hl.
  apply list_elem_of_filter in Hl as [Hne Hl].
  apply list_elem_of_fmap in Hl as (raw & -> & Hraw).
  split; [done|]. split; [apply trim_idem|].
  apply trim_keeps_absent. apply (split_lines_pieces JS.LF text); [by left|done].
Qed.

(** X2.  Writing the result of [parseUniqueLines] one entry per line and
    parsing that again gives the same list: the parser is idempotent on its
    own output. *)
Theorem parseUniqueLines_idempotent (text : string) :
  parseUniqueLines (JS.join JS.nl (parseUniqueLines text))
  = parseUniqueLines text.
Proof.
  apply parseUniqueLines_reads_back.
  - rewrite parseUniqueLines_first_occurrences. apply first_occurrences_NoDup.
  - intros l. apply parseUniqueLines_clean.
Qed.

Lemma replace_commas_app (a b : string) :
  JS.replace_commas (a +:+ b) = JS.replace_commas a +:+ JS.replace_commas b.
Proof.
  induction a as [|c a IH]; [done|].
  rewrite app_cons. cbn [JS.replace_commas]. by rewrite IH, app_cons.
Qed.

Lemma replace_commas_clear (s : string) :
  JS.includes (JS.replace_commas s) "," = false.
Proof.
  induction s as [|c s IH]; [done|]. cbn [JS.replace_commas].
  rewrite includes_char_cons, IH, orb_false_r.
  destruct (Ascii.eqb c ",") eqn:Hc; [done|]. by rewrite Ascii.eqb_sym.
Qed.

Lemma replace_commas_same (s : string) :
  JS.includes s "," = false → JS.replace_commas s = s.
Proof.
  induction s as [|c s IH]; [done|]. rewrite includes_char_cons.
  intros H. apply orb_false_iff in H as [Hc Hs]. cbn [JS.replace_commas].
  rewrite Ascii.eqb_sym in Hc. by rewrite Hc, IH.
Qed.

Lemma join_cons (sep x y : string) (ls : list string) :
  JS.join sep (x :: y :: ls) = x +:+ sep +:+ JS.join sep (y :: ls).
Proof. reflexivity. Qed.

Lemma replace_commas_join (ls : list string) :
  (∀ l, l ∈ ls → JS.includes l "," = false) →
  JS.replace_commas (JS.join "," ls) = JS.join JS.nl ls.
Proof.
  induction ls as [|x [|y ls] IH]; intros Hall; [done| |].
  - cbn [JS.join]. apply replace_commas_same, Hall, list_elem_of_here.
  - rewrite !join_cons. rewrite !replace_commas_app.
    rewrite (replace_commas_same x) by apply Hall, list_elem_of_here.
    rewrite IH; [done|]. intros l Hl. apply Hall. by apply list_elem_of_further.
Qed.

(** X3.  The validation checks are given as a comma- or newline-delimited
    list: [main] replaces every comma by a line feed and parses the lines.
    No entry of the result holds a comma or a line feed, and a
    comma-separated list of distinct clean entries is read back as it
    is. *)
Theorem checks_from_comma_list :
  (∀ raw l,
     l ∈ parseUniqueLines (JS.replace_commas raw) →
     clean_entry l ∧ JS.includes l "," = false) ∧
  (∀ ls,
     NoDup ls →
     (∀ l, l ∈ ls → clean_entry l ∧ JS.includes l "," = false) →
     parseUniqueLines (JS.replace_commas (JS.join "," ls)) = ls).
Proof.
  split.
  - intros raw l Hl. split; [by apply parseUniqueLines_clean in Hl|].
    rewrite parseUniqueLines_first_occurrences, first_occurrences_elem in Hl.
    destruct Hl as [Hl _]. unfold trimmed_lines in Hl.
    apply list_elem_of_filter in Hl as [_ Hl].
    apply list_elem_of_fmap in Hl as (piece & -> & Hpiece).
    apply trim_keeps_absent.
    apply (split_lines_pieces "," (JS.replace_commas raw)); [|done].
    right. apply replace_commas_clear.
  - intros ls Hnd Hall. rewrite replace_commas_join by (intros; by apply Hall).
    apply parseUniqueLines_reads_back; [done|]. intros. by apply Hall.
Qed.

Lemma checks_from_comma_list_witness :
  parseUniqueLines (JS.replace_commas (JS.join "," ["buf lint"; "buf build"]))
  = ["buf lint"; "buf build"].
Proof.
  apply checks_from_comma_list.
  - apply NoDup_cons. split.
    + intros H. apply list_elem_of_singleton in H. discriminate H.
    + apply NoDup_singleton.
  - intros l Hl. apply elem_of_cons in Hl as [->|Hl].
    + vm_compute. repeat split; discriminate.
    + apply list_elem_of_singleton in Hl as ->.
      vm_compute. repeat split; discriminate.
Defined.

(** ** [buildCommentBody]: what the report holds *)

Lemma includes_app_l (a b m : string) :
  JS.includes a m = true → JS.includes (a +:+ b) m = true.
Proof.
  intros H. apply includes_spec in H as (x & y & ->).
  rewrite !app_assoc_str. apply includes_app.
Qed.

Lemma includes_app_r (a b m : string) :
  JS.includes b m = true → JS.includes (a +:+ b) m = true.
Proof.
  intros H. apply includes_spec in H as (x & y & ->).
  rewrite <- app_assoc_str. apply includes_app.
Qed.

Lemma includes_self (m : string) : JS.includes m m = true.
Proof.
  apply includes_of_startsWith. rewrite <- (app_empty_r m) at 1.
  apply startsWith_app.
Qed.

Lemma includes_join (sep x : string) (ls : list string) :
  x ∈ ls → JS.includes (JS.join sep ls) x = true.
Proof.
  induction ls as [|y [|z ls] IH]; intros Hx.
  - by apply elem_of_nil in Hx.
  - apply list_elem_of_singleton in Hx as ->. apply includes_self.
  - rewrite join_cons. apply elem_of_cons in Hx as [->|Hx].
    + apply includes_app_l, includes_self.
    + apply includes_app_r, includes_app_r. by apply IH.
Qed.

Lemma startsWith_cancel (a s t : string) :
  JS.startsWith (a +:+ s) (a +:+ t) = JS.startsWith s t.
Proof.
  induction a as [|c a IH]; [done|].
  rewrite !app_cons. cbn [JS.startsWith]. by rewrite ascii_eqb_refl, IH.
Qed.

Lemma startsWith_self (s : string) : JS.startsWith s s = true.
Proof. rewrite <- (app_empty_r s) at 1. apply startsWith_app. Qed.

(** Finds a piece in a right-nested chain of appended pieces. *)
Ltac at_piece :=
  repeat rewrite startsWith_cancel;
  first [ apply startsWith_app | apply startsWith_self
        | apply startsWith_empty ].
Ltac find_piece :=
  first [ apply includes_of_startsWith; at_piece
        | apply includes_app_r; find_piece ].
Ltac find_within H :=
  first [ apply includes_app_l; exact H
        | apply includes_app_r; find_within H ].

Lemma file_section_lists (placeholder : string) (files : list string) :
  let fileLines := code_bullet <$> take MAX_FILES_TO_LIST files in
  let fileList :=
    if 0 <? length fileLines then JS.join JS.nl fileLines else placeholder in
  (∀ f, f ∈ take MAX_FILES_TO_LIST files →
        JS.includes fileList (code_bullet f) = true) ∧
  (files = [] → fileList = placeholder).
Proof.
  cbv zeta. split.
  - intros f Hf.
    destruct (Nat.ltb_spec 0 (length (code_bullet <$> take MAX_FILES_TO_LIST files)))
      as [_|Hlen].
    + apply includes_join. by apply list_elem_of_fmap_2.
    + rewrite length_fmap in Hlen.
      destruct (take MAX_FILES_TO_LIST files); [by apply elem_of_nil in Hf|].
      simpl in Hlen. lia.
  - intros ->. by rewrite take_nil.
Qed.

(** X4.  Both report bodies state the number of changed files, list each of
    the first 80 changed files as a bullet, add the line
    [...and K more files] with [K] the number of files beyond 80 when there
    are more, and show a placeholder bullet when there is no changed
    file. *)
Theorem body_lists_changed_files
    (m baseSha headSha : string) (files : list string) (diff : string)
    (cut : bool) (mode reason status : string) (checks : list string) :
  let review :=
    ProtobufReview.buildCommentBody m baseSha headSha files diff cut mode
      reason status checks in
  let generated :=
    GeneratedDiff.buildCommentBody m baseSha headSha files diff cut mode
      reason in
  (JS.includes review
     ("- Changed .proto files: " +:+ pretty (length files) +:+ JS.nl) = true ∧
   JS.includes generated
     ("- Generated protobuf files changed: " +:+ pretty (length files)
      +:+ JS.nl) = true) ∧
  (∀ f, f ∈ take MAX_FILES_TO_LIST files →
        JS.includes review ("- `" +:+ f +:+ "`") = true ∧
        JS.includes generated ("- `" +:+ f +:+ "`") = true) ∧
  (MAX_FILES_TO_LIST < length files →
   let more :=
     "- ...and " +:+ pretty (length files - MAX_FILES_TO_LIST)
     +:+ " more files" +:+ JS.nl in
   JS.includes review more = true ∧ JS.includes generated more = true) ∧
  (files = [] →
   JS.includes review
     ("- (no .proto files changed in this PR)" +:+ JS.nl) = true ∧
   JS.includes generated
     ("- (unable to compute changed generated files)" +:+ JS.nl) = true).
Proof.
  cbv zeta.
  unfold ProtobufReview.buildCommentBody, GeneratedDiff.buildCommentBody.
  cbv zeta. split; [split; find_piece|]. split; [|split].
  - intros f Hf.
    pose proof (file_section_lists "- (no .proto files changed in this PR)"
                  files) as [H1 _].
    pose proof (file_section_lists
                  "- (unable to compute changed generated files)" files)
      as [H2 _].
    cbv zeta in H1, H2. specialize (H1 f Hf). specialize (H2 f Hf).
    split; [find_within H1|find_within H2].
  - intros Hmore. unfold hidden_line.
    destruct (Nat.ltb_spec 0 (length files - MAX_FILES_TO_LIST)); [|lia].
    split; rewrite !app_assoc_str; find_piece.
  - intros ->. unfold hidden_line. rewrite take_nil. cbn [fmap list_fmap length].
    change (0 <? 0) with false.
    change (0 <? 0 - MAX_FILES_TO_LIST) with false.
    cbv iota. rewrite !app_empty_l. split; find_piece.
Qed.

Lemma body_lists_changed_files_witness :
  JS.includes
    (ProtobufReview.buildCommentBody "m" "b1" "h1" ["a.proto"] "" false
       "full" "" "passed" []) ("- `" +:+ "a.proto" +:+ "`") = true ∧
  JS.includes
    (GeneratedDiff.buildCommentBody "m" "b1" "h1" ["a.proto"] "" false
       "full" "") ("- `" +:+ "a.proto" +:+ "`") = true.
Proof.
  apply (body_lists_changed_files "m" "b1" "h1" ["a.proto"] "" false "full" ""
           "passed" []).
  apply list_elem_of_In. vm_compute. left. reflexivity.
Defined.

(** X5.  The review trigger's body has two validation templates.  With
    validation status exactly [skipped] it says that validation was skipped
    and asks for a full review; with any other status it says that
    validation passed, lists the checks given, or the three default checks
    when none is given, and asks for a protobuf-first review.  The diff
    section shows the excerpt in a [diff] fence, marked [(truncated)] when
    it was cut, or a notice that no diff was detected when the excerpt is
    blank. *)
Theorem review_body_templates
    (m baseSha headSha : string) (files : list string) (diff : string)
    (cut : bool) (mode reason status : string) (checks : list string) :
  let review :=
    ProtobufReview.buildCommentBody m baseSha headSha files diff cut mode
      reason status checks in
  (status = "skipped" →
   JS.includes review
     "Protobuf contract validation was intentionally skipped for this pull request."
     = true ∧
   JS.includes review "Please perform a full review for this PR." = true) ∧
  (status ≠ "skipped" →
   JS.includes review
     "Protobuf contract validation passed for this pull request." = true ∧
   JS.includes review
     "Please review this PR with a protobuf-first contract focus:" = true ∧
   ∀ c, c ∈ match checks with
            | [] => ProtobufReview.default_checks
            | _ => checks
            end →
        JS.includes review ("- `" +:+ c +:+ "`") = true) ∧
  (JS.trim diff = "" →
   JS.includes review "No .proto diff was detected for this head commit."
   = true) ∧
  (JS.trim diff ≠ "" →
   JS.includes review
     ("Protobuf contract diff excerpt"
      +:+ (if cut then " (truncated)" else "") +:+ ":" +:+ JS.nl
      +:+ "```diff" +:+ JS.nl +:+ diff +:+ JS.nl +:+ "```" +:+ JS.nl) = true).
Proof.
  cbv zeta. unfold ProtobufReview.buildCommentBody. cbv zeta.
  split; [|split; [|split]].
  - intros ->. change (String.eqb "skipped" "skipped") with true. cbv iota.
    rewrite !app_assoc_str. split; find_piece.
  - intros Hstatus. apply String.eqb_neq in Hstatus. rewrite Hstatus.
    rewrite !app_assoc_str. split; [find_piece|]. split; [find_piece|].
    intros c Hc.
    assert (JS.includes
              (JS.join JS.nl
                 (code_bullet <$>
                    (if 0 <? length checks then checks
                     else ProtobufReview.default_checks)))
              ("- `" +:+ c +:+ "`") = true) as H.
    { apply includes_join. apply (list_elem_of_fmap_2 code_bullet).
      by destruct checks. }
    find_within H.
  - intros Hblank. rewrite Hblank. change (JS.truthy "") with false.
    cbv iota. rewrite !app_assoc_str. find_piece.
  - intros Hdiff. apply truthy_spec in Hdiff. rewrite Hdiff.
    rewrite !app_assoc_str. find_piece.
Qed.


Lemma review_body_templates_witness :
  "failed" ≠ "skipped" ∧
  JS.includes
    (ProtobufReview.buildCommentBody "m" "b1" "h1" [] "" false "full" ""
       "failed" []) "Protobuf contract validation passed for this pull request."
  = true.
Proof.
  split; [discriminate|].
  destruct (review_body_templates "m" "b1" "h1" [] "" false "full" ""
              "failed" []) as (_ & H & _).
  destruct (H ltac:(discriminate)) as [H1 _]. exact H1.
Defined.

(** ** The protobuf orchestrators: when they stop and when they post *)

Lemma or_else_unset (env : gmap string string) (key d : string) :
  env_unset env key → JS.or_else (env !! key) d = d.
Proof. by intros [->| ->]. Qed.

Lemma or_else_set (env : gmap string string) (key d : string) :
  env_set env key → JS.truthy (JS.or_else (env !! key) d) = true.
Proof.
  intros (v & -> & Hv). apply truthy_spec in Hv as Hv'.
  unfold JS.or_else. by rewrite Hv'.
Qed.

(** X6.  With a PR number but without a base revision, a head revision or a
    file-list path (unset or empty), both protobuf scripts write one line
    and return normally without any request; the generated-diff trigger
    requires the diff path as well, the review trigger does not. *)
Theorem missing_environment_is_noop (gh : GitHub) (context : Context)
    (env fs : gmap string string) (st : State) :
  JS.num_truthy (payload_number context) = true →
  (env_unset env "BASE_SHA" ∨ env_unset env "HEAD_SHA"
   ∨ env_unset env "PROTOBUF_FILES_PATH" →
   ∃ entry,
     ProtobufReview.main gh context env fs st = (Normal (), with_line st entry)
     ∧ line entry = missing_env_line) ∧
  (env_unset env "BASE_SHA" ∨ env_unset env "HEAD_SHA"
   ∨ env_unset env "PROTOBUF_FILES_PATH"
   ∨ env_unset env "PROTOBUF_DIFF_PATH" →
   ∃ entry,
     GeneratedDiff.main gh context env fs st = (Normal (), with_line st entry)
     ∧ line entry = missing_env_line).
Proof.
  intros Hn. split.
  - intros Hmiss. unfold ProtobufReview.main. cbv zeta. rewrite Hn.
    cbn [negb].
    assert (negb (JS.truthy (JS.or_else (env !! "BASE_SHA") ""))
            || negb (JS.truthy (JS.or_else (env !! "HEAD_SHA") ""))
            || negb (JS.truthy (JS.or_else (env !! "PROTOBUF_FILES_PATH") ""))
            = true) as ->.
    { destruct Hmiss as [H|[H|H]]; rewrite (or_else_unset _ _ _ H);
        cbn; by rewrite ?orb_true_r. }
    eexists. split; [apply console_log_run|done].
  - intros Hmiss. unfold GeneratedDiff.main. cbv zeta. rewrite Hn.
    cbn [negb].
    assert (negb (JS.truthy (JS.or_else (env !! "BASE_SHA") ""))
            || negb (JS.truthy (JS.or_else (env !! "HEAD_SHA") ""))
            || negb (JS.truthy (JS.or_else (env !! "PROTOBUF_DIFF_PATH") ""))
            || negb (JS.truthy (JS.or_else (env !! "PROTOBUF_FILES_PATH") ""))
            = true) as ->.
    { destruct Hmiss as [H|[H|[H|H]]]; rewrite (or_else_unset _ _ _ H);
        cbn; by rewrite ?orb_true_r. }
    eexists. split; [apply console_log_run|done].
Qed.

Lemma missing_environment_is_noop_witness :
  ∃ entry,
    GeneratedDiff.main quiet_service sample_context
      (delete "PROTOBUF_DIFF_PATH" sample_env) sample_fs (state_with [])
    = (Normal (), with_line (state_with []) entry)
    ∧ line entry = missing_env_line.
Proof.
  apply (missing_environment_is_noop quiet_service sample_context
           (delete "PROTOBUF_DIFF_PATH" sample_env) sample_fs (state_with [])).
  - reflexivity.
  - right. right. right. left. reflexivity.
Defined.


Lemma generated_env_passes (env : gmap string string) :
  generated_env_ready env →
  negb (JS.truthy (JS.or_else (env !! "BASE_SHA") ""))
  || negb (JS.truthy (JS.or_else (env !! "HEAD_SHA") ""))
  || negb (JS.truthy (JS.or_else (env !! "PROTOBUF_DIFF_PATH") ""))
  || negb (JS.truthy (JS.or_else (env !! "PROTOBUF_FILES_PATH") "")) = false.
Proof. intros [(H1 & H2 & H3) H4]. by rewrite !or_else_set. Qed.

(** X7.  The generated-diff trigger stops when the diff file is missing or
    blank: one console line, normal return, no request at all, not even a
    listing. *)
Theorem blank_generated_diff_is_noop (gh : GitHub) (context : Context)
    (env fs : gmap string string) (st : State) :
  JS.num_truthy (payload_number context) = true →
  generated_env_ready env →
  JS.trim (diff_of env fs) = "" →
  GeneratedDiff.main gh context env fs st =
  (Normal (),
   with_line st
     {| channel := Out;
        line := "No generated protobuf diff found. Skipping CodeRabbit trigger.";
        detail := [] |}).
Proof.
  intros Hn Henv Hblank. unfold GeneratedDiff.main. cbv zeta.
  rewrite Hn. cbn [negb]. rewrite (generated_env_passes env Henv).
  fold (diff_of env fs). rewrite Hblank. done.
Qed.

Lemma blank_generated_diff_is_noop_witness :
  GeneratedDiff.main quiet_service sample_context sample_env
    (delete "proto.diff" sample_fs) (state_with []) =
  (Normal (),
   with_line (state_with [])
     {| channel := Out;
        line := "No generated protobuf diff found. Skipping CodeRabbit trigger.";
        detail := [] |}).
Proof.
  apply (blank_generated_diff_is_noop quiet_service sample_context sample_env
           (delete "proto.diff" sample_fs) (state_with [])).
  - reflexivity.
  - repeat split; eexists; (split; [reflexivity|discriminate]).
  - reflexivity.
Defined.

Lemma existsb_filter_nil {A} (f : A → bool) (l : list A) :
  existsb f l = false → List.filter f l = [].
Proof.
  induction l as [|x l IH]; [done|]. simpl. intros H.
  apply orb_false_iff in H as [-> H]. by apply IH.
Qed.

Lemma quiet_no_creation (st st' : State) :
  quiet st st' → List.filter is_create (sent_since st st') = [].
Proof. intros [_ H]. by apply existsb_filter_nil. Qed.



(** X9.  One run of any of the three scripts sends at most one creation
    request, and leaves every thread as it was except that it may add one
    comment to one thread. *)
Theorem at_most_one_comment_per_run (gh : GitHub) (context : Context)
    (env fs : gmap string string) (st : State) :
  let o := owner (context_repo context) in
  let r := repo (context_repo context) in
  let bounded (run : completion unit * State) :=
    length (List.filter is_create (sent_since st (snd run))) ≤ 1 ∧
    (threads (snd run) = threads st ∨
     ∃ n b, threads (snd run) =
              <[ (o, r, n) := comments_of st o r n ++ [{| body := Some b |}] ]>
                (threads st)) in
  bounded (ProtobufReview.main gh context env fs st) ∧
  bounded (GeneratedDiff.main gh context env fs st) ∧
  bounded (LinkBot.main gh context env st).
Proof.
  cbv zeta.
  assert (∀ pre rq, existsb is_create pre = false → is_create rq = true →
            length (List.filter is_create (pre ++ [rq])) ≤ 1) as Hone.
  { intros pre rq Hpre Hrq. rewrite List.filter_app.
    rewrite (existsb_filter_nil _ _ Hpre). simpl. rewrite Hrq. done. }
  assert (∀ on_cap on_error m main,
            protobuf_run on_cap on_error m main gh context env st →
            length (List.filter is_create (sent_since st (snd (main st)))) ≤ 1 ∧
            (threads (snd (main st)) = threads st ∨
             ∃ n b, threads (snd (main st)) =
                      <[ (owner (context_repo context),
                          repo (context_repo context), n) :=
                           comments_of st (owner (context_repo context))
                             (repo (context_repo context)) n
                           ++ [{| body := Some b |}] ]> (threads st)))
    as Hproto.
  { intros on_cap on_error m main Hrun.
    destruct (protobuf_run_cases _ _ _ _ _ _ _ _ Hrun)
      as (res & st' & -> & Hcase). cbn [snd].
    unfold protobuf_attempt in Hcase. cbv zeta in Hcase.
    destruct Hcase as [[_ Hq]|(stg & b & pre & _ & _ & -> & Hpre & Hc)].
    { rewrite (quiet_no_creation _ _ Hq). split; [simpl; lia|].
      left. by destruct Hq. }
    split; [by apply Hone|].
    destruct (create_error _ _ _).
    - left. by destruct Hc.
    - right. destruct Hc as [_ ->]. eauto. }
  split; [apply (Hproto _ _ _ _ (PR_main_run gh context env fs st))|].
  split; [apply (Hproto _ _ _ _ (GD_main_run gh context env fs st))|].
  destruct (linkbot_main_run gh context env st) as (res & st' & -> & Hcase).
  cbn [snd]. unfold linkbot_attempt in Hcase. cbv zeta in Hcase.
  destruct Hcase as [Hq|(n & author & pre & _ & _ & _ & -> & Hpre & Hc)].
  { rewrite (quiet_no_creation _ _ Hq). split; [simpl; lia|].
    left. by destruct Hq. }
  split; [by apply Hone|].
  destruct (create_error _ _ _).
  - left. by destruct Hc.
  - right. destruct Hc as [_ ->]. eauto.
Qed.









(** ** The guard stops at the first match *)

Lemma existsb_false_elem {A} (f : A → bool) (l : list A) :
  existsb f l = false ↔ ∀ x, x ∈ l → f x = false.
Proof.
  induction l as [|y l IH]; simpl.
  - split; [intros _ x Hx; by apply elem_of_nil in Hx|done].
  - rewrite orb_false_iff, IH. split.
    + intros [Hy Hl] x Hx. apply elem_of_cons in Hx as [->|Hx]; auto.
    + intros H. split; [apply H, list_elem_of_here|].
      intros x Hx. apply H. by apply list_elem_of_further.
Qed.

Lemma existsb_true_elem {A} (f : A → bool) (l : list A) (x : A) :
  x ∈ l → f x = true → existsb f l = true.
Proof.
  intros Hx Hf. apply existsb_exists. exists x.
  split; [by apply list_elem_of_In|done].
Qed.

Lemma scan_fetched_hit (on_cap : bool) (marker : string) (l : list Comment)
    (i : nat) (c : Comment) (cnt j : nat) :
  l !! i = Some c → has_marker marker c = true →
  existsb (has_marker marker) (take i l) = false →
  i < MAX_COMMENTS_TO_SCAN →
  j * 100 ≤ i → i < (j + cnt) * 100 →
  scan_fetched on_cap marker
    (inr <$> ((λ p, page_of 100 p l) <$> seq j cnt)) (j * 100)
  = (Normal (Some true), S (i `div` 100 - j)).
Proof.
  intros Hi Hc Hbefore Hcap. revert j.
  induction cnt as [|cnt IH]; intros j Hj Hcnt; [lia|].
  cbn [seq fmap list_fmap scan_fetched].
  assert (i < length l) as Hlen by (by apply lookup_lt_Some in Hi).
  unfold MAX_COMMENTS_TO_SCAN in Hcap.
  rewrite scan_page_closed by (unfold MAX_COMMENTS_TO_SCAN; lia).
  destruct (decide (i < (j + 1) * 100)) as [Hhere|Hlater].
  - assert (i `div` 100 = j) as Hdiv.
    { symmetry. apply Nat.div_unique with (i - j * 100); lia. }
    assert (existsb (has_marker marker)
              (take (MAX_COMMENTS_TO_SCAN - j * 100) (page_of 100 j l)) = true)
      as ->.
    { apply (existsb_true_elem _ _ c); [|done].
      apply list_elem_of_lookup. exists (i - j * 100).
      unfold page_of, MAX_COMMENTS_TO_SCAN.
      rewrite lookup_take_lt by lia. rewrite lookup_take_lt by lia.
      rewrite lookup_drop. rewrite <- Hi. f_equal. lia. }
    rewrite Hdiv. by rewrite Nat.sub_diag.
  - assert (length (page_of 100 j l) = 100) as Hfull.
    { unfold page_of. rewrite length_take, length_drop. lia. }
    assert (existsb (has_marker marker)
              (take (MAX_COMMENTS_TO_SCAN - j * 100) (page_of 100 j l)) = false)
      as ->.
    { apply existsb_false_elem. intros x Hx.
      apply (proj1 (existsb_false_elem _ _) Hbefore).
      apply list_elem_of_lookup in Hx as [t Ht].
      apply lookup_take_Some in Ht as [Ht Ht1].
      unfold page_of in Ht. apply lookup_take_Some in Ht as [Ht Ht2].
      rewrite lookup_drop in Ht.
      apply list_elem_of_lookup. exists (j * 100 + t).
      rewrite lookup_take_lt by lia. done. }
    rewrite Hfull.
    destruct (Nat.leb_spec (MAX_COMMENTS_TO_SCAN - j * 100) 100) as [Hle|_].
    { unfold MAX_COMMENTS_TO_SCAN in Hle. lia. }
    replace (j * 100 + 100) with (S j * 100) by lia.
    rewrite IH by lia. f_equal.
    assert (S j ≤ i `div` 100); [|lia].
    apply Nat.div_le_lower_bound; lia.
Qed.

(** X13.  When the listing succeeds and the first comment that carries the
    marker stands at index [i] below 500, both guards answer [true] after
    requesting exactly the pages up to the one that holds it, [i / 100 + 1]
    requests of a hundred comments; no later page is asked for. *)
Theorem guard_stops_at_first_match (gh : GitHub) (o r : string) (n : Z)
    (marker : string) (st : State) (i : nat) (c : Comment) :
  listing_succeeds gh n →
  comments_of st o r n !! i = Some c →
  has_marker marker c = true →
  existsb (has_marker marker) (take i (comments_of st o r n)) = false →
  i < MAX_COMMENTS_TO_SCAN →
  let found :=
    (Normal true, with_requests st (page_requests o r n (i `div` 100 + 1))) in
  ProtobufReview.hasExistingTriggerComment gh o r n marker st = found ∧
  GeneratedDiff.hasExistingTriggerComment gh o r n marker st = found.
Proof.
  intros Hok Hi Hc Hbefore Hcap. cbv zeta.
  destruct guard_instances as [-> ->].
  assert (∀ on_cap on_error,
            guard_with on_cap on_error gh o r n marker st =
            (Normal true,
             with_requests st (page_requests o r n (i `div` 100 + 1))))
    as Hboth; [|by split].
  intros on_cap on_error.
  unfold guard_with, try_catch. rewrite bind_run.
  unfold scan_thread. rewrite scan_pages_fetched.
  set (l := comments_of st o r n) in *.
  rewrite fetched_succeeds by (intros; apply Hok).
  assert (i < length l) as Hlen by (by apply lookup_lt_Some in Hi).
  pose proof (page_count_covers l) as Hcover.
  pose proof (scan_fetched_hit on_cap marker l i c (page_count 100 l) 0
                Hi Hc Hbefore Hcap) as Hhit.
  change (0 * 100) with 0 in Hhit. rewrite Hhit by lia.
  rewrite Nat.sub_0_r.
  assert (i `div` 100 < page_count 100 l) as Hpage.
  { apply Nat.Div0.div_lt_upper_bound; lia. }
  rewrite take_seq, Nat.min_l by lia.
  unfold page_requests. by rewrite Nat.add_1_r.
Qed.

Lemma guard_stops_at_first_match_witness :
  let thread :=
    chatter 150 ++ [{| body := Some (GeneratedDiff.marker "h1") |}]
    ++ chatter 400 in
  GeneratedDiff.hasExistingTriggerComment quiet_service "hiero" "sdk" 7%Z
    (GeneratedDiff.marker "h1") (state_with thread)
  = (Normal true,
     with_requests (state_with thread) (page_requests "hiero" "sdk" 7%Z 2)).
Proof.
  cbv zeta.
  apply (guard_stops_at_first_match quiet_service "hiero" "sdk" 7%Z
           (GeneratedDiff.marker "h1")
           (state_with
              (chatter 150 ++ [{| body := Some (GeneratedDiff.marker "h1") |}]
               ++ chatter 400)) 150
           {| body := Some (GeneratedDiff.marker "h1") |}).
  - intros p. reflexivity.
  - vm_compute. reflexivity.
  - vm_compute. reflexivity.
  - vm_compute. reflexivity.
  - vm_compute. lia.
Defined.

(** ** LinkBot: the decisions after the author check *)

Lemma linkbot_enter (gh : GitHub) (context : Context)
    (env : gmap string string) (st : State) (n : Z) (pr : PullRequest) :
  linkbot_human gh context env n pr →
  ∃ st1,
    threads st1 = threads st ∧
    requests st1 = requests st ++ linkbot_fetch context n ∧
    LinkBot.main gh context env st =
    try_catch
      (linkbot_after_author gh context env n (user pr ≫= λ u, login u))
      (LinkBot.on_error context (Some n)) st1.
Proof.
  intros (Hpn & Hn0 & Hdata & Hbot).
  assert (JS.num_truthy (Some n) = true) as Htruthy.
  { cbn. by destruct (Z.eqb_spec n 0). }
  assert (∃ p, payload context = Some p) as [p Hp].
  { unfold linkbot_pr_data in Hdata. destruct (payload context); [eauto|done]. }
  assert (try_catch (LinkBot.resolvePrNumber context env)
            (LinkBot.on_error context None) st = (Normal (Some n), st))
    as Hresolve.
  { unfold linkbot_pr_number, payload_number in Hpn. cbv zeta in Hpn.
    unfold LinkBot.resolvePrNumber, try_catch.
    destruct (JS.num_truthy (JS.Number (env !! "PR_NUMBER")));
      [by rewrite Hpn|].
    rewrite Hp in *. cbn in *. by destruct (pull_request p); simplify_eq/=. }
  unfold LinkBot.main. rewrite bind_run, Hresolve.
  unfold try_catch at 1. unfold try_catch at 1.
  unfold LinkBot.process. rewrite Htruthy. cbn [negb].
  change (default 0%Z (Some n)) with n. cbv zeta.
  rewrite bind_run, console_log_run, bind_run.
  unfold linkbot_pr_data in Hdata. unfold linkbot_fetch.
  rewrite Hp in *. cbn in Hdata.
  destruct (pull_request p) as [pr'|].
  - injection Hdata as ->. cbn [mret M_ret ret]. rewrite Hbot.
    eexists. split; [|split; [|reflexivity]]; [done|].
    cbn. by rewrite app_nil_r.
  - unfold pullsGet. destruct (pulls_get gh n) as [pr'|]; [|done].
    injection Hdata as ->. rewrite Hbot.
    eexists. split; [|split; [|reflexivity]]; done.
Qed.

Lemma getLinkedOpenIssues_answer (gh : GitHub) (o r : string) (n : Z)
    (st : State) :
  ∃ st',
    LinkBot.getLinkedOpenIssues gh o r n st
    = (Normal (linked_open (graphql gh n)), st') ∧
    threads st' = threads st ∧
    requests st' = requests st ++ [Graphql o r n] ∧
    (is_Some (linked_open (graphql gh n)) → console st' = console st) ∧
    (linked_open (graphql gh n) = None →
     ∃ entry, console st' = console st ++ [entry] ∧ channel entry = Err).
Proof.
  unfold LinkBot.getLinkedOpenIssues, try_catch. rewrite bind_run.
  unfold graphqlClosingIssues. rewrite send_with_requests.
  destruct (graphql gh n) as [[|nodes]|e]; cbn [linked_open].
  - eexists. split; [reflexivity|]. split; [done|]. split; [done|].
    split; [by intros [? ?]|]. intros _. eexists. split; [reflexivity|done].
  - eexists. split; [reflexivity|]. split; [done|]. split; [done|].
    split; [done|]. done.
  - eexists. split; [reflexivity|]. split; [done|]. split; [done|].
    split; [by intros [? ?]|]. intros _. eexists. split; [reflexivity|done].
Qed.

(** X14.  [getLinkedOpenIssues] never throws and changes no thread: it
    sends one GraphQL request and answers the linked issues whose state is
    exactly [OPEN], in the order received, an absent [nodes] field counting
    as no issue; when the query throws or a field on the path to [nodes] is
    null it writes one line to the error channel and answers [null]. *)
Theorem getLinkedOpenIssues_contract (gh : GitHub) (o r : string) (n : Z)
    (st : State) :
  ∃ answer st',
    LinkBot.getLinkedOpenIssues gh o r n st = (Normal answer, st') ∧
    threads st' = threads st ∧
    requests st' = requests st ++ [Graphql o r n] ∧
    (∀ nodes, graphql gh n = Normal (Nodes nodes) →
       answer = Some (filter (λ issue, state issue = "OPEN")
                        (default [] nodes)) ∧
       console st' = console st) ∧
    ((∃ e, graphql gh n = Thrown e) ∨ graphql gh n = Normal NullOnPath →
     answer = None ∧
     ∃ entry, console st' = console st ++ [entry] ∧ channel entry = Err).
Proof.
  destruct (getLinkedOpenIssues_answer gh o r n st)
    as (st' & Hrun & Ht & Hr & Hsome & Hnone).
  exists (linked_open (graphql gh n)), st'.
  split; [done|]. split; [done|]. split; [done|]. split.
  - intros nodes Hg. rewrite Hg in *. cbn [linked_open] in *.
    split; [done|]. by apply Hsome.
  - intros [[e Hg]| Hg]; rewrite Hg in *; cbn [linked_open] in *;
      (split; [done|by apply Hnone]).
Qed.

Lemma getLinkedOpenIssues_contract_witness :
  ∃ answer st',
    LinkBot.getLinkedOpenIssues (listing_down server_error) "hiero" "sdk" 7%Z
      (state_with []) = (Normal answer, st') ∧
    answer = Some [].
Proof.
  destruct (getLinkedOpenIssues_contract (listing_down server_error) "hiero"
              "sdk" 7%Z (state_with []))
    as (answer & st' & Hrun & _ & _ & Hnodes & _).
  exists answer, st'. split; [exact Hrun|].
  apply (Hnodes (Some [])). reflexivity.
Defined.

Lemma no_open_issue (issues : list Issue) :
  (∀ issue, issue ∈ issues → state issue ≠ "OPEN") →
  filter (λ issue, state issue = "OPEN") issues = [].
Proof.
  induction issues as [|issue issues IH]; intros H; [done|].
  rewrite filter_cons_False by (apply H, list_elem_of_here).
  apply IH. intros i Hi. apply H. by apply list_elem_of_further.
Qed.

(** X15.  LinkBot does not guard its comment listing: when the listing
    request fails, the error is thrown to the caller, and the listing was
    the last request: no GraphQL query and no creation request follow. *)
Theorem linkbot_listing_failure_is_thrown (gh : GitHub) (context : Context)
    (env : gmap string string) (st : State) (n : Z) (pr : PullRequest)
    (e : Error) :
  linkbot_human gh context env n pr →
  list_error gh n 0 = Some e →
  ∃ st',
    LinkBot.main gh context env st = (Thrown e, st') ∧
    threads st' = threads st ∧
    sent_since st st' =
      linkbot_fetch context n
      ++ [ListComments (owner (context_repo context))
            (repo (context_repo context)) n None 0].
Proof.
  intros Hhuman Hlist.
  destruct (linkbot_enter gh context env st n pr Hhuman)
    as (st1 & Ht1 & Hr1 & ->).
  unfold try_catch, linkbot_after_author. cbv zeta.
  rewrite bind_run, checkAlreadyCommented_run, Hlist.
  destruct (@on_error_run unit context (Some n) e
              (with_requests st1
                 [ListComments (owner (context_repo context))
                    (repo (context_repo context)) n None 0]))
    as (st' & -> & Ht & Hr).
  exists st'. split; [done|]. split; [by rewrite Ht|].
  apply sent_since_with_requests. rewrite Hr. cbn. rewrite Hr1.
  by rewrite <- app_assoc.
Qed.

Lemma linkbot_listing_failure_is_thrown_witness :
  ∃ st',
    LinkBot.main (listing_down server_error) sample_context ∅ (state_with [])
    = (Thrown server_error, st') ∧
    threads st' = threads (state_with []) ∧
    sent_since (state_with []) st' =
      linkbot_fetch sample_context 7%Z
      ++ [ListComments "hiero" "sdk" 7%Z None 0].
Proof.
  apply (linkbot_listing_failure_is_thrown (listing_down server_error)
           sample_context ∅ (state_with []) 7%Z (pr_by "User" "alice")).
  - split; [reflexivity|]. split; [lia|]. split; reflexivity.
  - reflexivity.
Defined.

(** X16.  LinkBot comments only when it knows that no open issue is
    linked.  When the GraphQL query throws, when a field on the path to the
    nodes is null, or when one of the linked issues is in state [OPEN], the
    run writes a console line and returns normally: its requests are the
    listing and the query, and no thread changes. *)
Theorem linkbot_linked_or_unknown_posts_nothing (gh : GitHub)
    (context : Context) (env : gmap string string) (st : State) (n : Z)
    (pr : PullRequest) :
  linkbot_human gh context env n pr →
  list_error gh n 0 = None →
  ((∃ e, graphql gh n = Thrown e) ∨ graphql gh n = Normal NullOnPath ∨
   (∃ nodes issue, graphql gh n = Normal (Nodes (Some nodes)) ∧
                   issue ∈ nodes ∧ state issue = "OPEN")) →
  ∃ st',
    LinkBot.main gh context env st = (Normal (), st') ∧
    threads st' = threads st ∧
    sent_since st st' =
      linkbot_fetch context n
      ++ [ListComments (owner (context_repo context))
            (repo (context_repo context)) n None 0;
          Graphql (owner (context_repo context))
            (repo (context_repo context)) n].
Proof.
  intros Hhuman Hlist Hlinks.
  destruct (linkbot_enter gh context env st n pr Hhuman)
    as (st1 & Ht1 & Hr1 & ->).
  unfold try_catch, linkbot_after_author. cbv zeta.
  rewrite bind_run, checkAlreadyCommented_run, Hlist. rewrite bind_run.
  match goal with
  | |- context [LinkBot.getLinkedOpenIssues gh ?o ?r n ?s] =>
      destruct (getLinkedOpenIssues_answer gh o r n s)
        as (st3 & -> & Ht3 & Hr3 & _)
  end.
  assert (sent_since st st3 =
          linkbot_fetch context n
          ++ [ListComments (owner (context_repo context))
                (repo (context_repo context)) n None 0;
              Graphql (owner (context_repo context))
                (repo (context_repo context)) n]) as Hsent.
  { apply sent_since_with_requests. rewrite Hr3. cbn. rewrite Hr1.
    by rewrite <- !app_assoc. }
  assert (threads st3 = threads st) as Hthreads by (by rewrite Ht3).
  destruct Hlinks as [[e Hg]|[Hg|(nodes & issue & Hg & Hin & Hopen)]];
    rewrite Hg; cbn [linked_open].
  - rewrite console_log_run. eauto.
  - rewrite console_log_run. eauto.
  - change (default [] (Some nodes)) with nodes.
    assert (issue ∈ filter (λ issue, state issue = "OPEN") nodes) as Hfiltered.
    { by apply list_elem_of_filter. }
    destruct (filter _ nodes) as [|x linked];
      [by apply elem_of_nil in Hfiltered|].
    cbn [length Nat.eqb]. rewrite console_log_run. eauto.
Qed.

Lemma linkbot_linked_or_unknown_posts_nothing_witness :
  let gh :=
    {| list_error := λ _ _, None;
       create_error := λ _ _, None;
       pulls_get := λ _, Thrown not_found;
       graphql := λ _,
         Normal (Nodes (Some [{| issue_number := 12%Z; state := "OPEN" |}]));
       default_per_page := 30 |} in
  ∃ st',
    LinkBot.main gh sample_context ∅ (state_with []) = (Normal (), st') ∧
    threads st' = threads (state_with []) ∧
    sent_since (state_with []) st' =
      linkbot_fetch sample_context 7%Z
      ++ [ListComments "hiero" "sdk" 7%Z None 0; Graphql "hiero" "sdk" 7%Z].
Proof.
  cbv zeta.
  eapply (linkbot_linked_or_unknown_posts_nothing _ sample_context ∅
            (state_with []) 7%Z (pr_by "User" "alice")).
  - split; [reflexivity|]. split; [lia|]. split; reflexivity.
  - reflexivity.
  - right. right.
    exists [{| issue_number := 12%Z; state := "OPEN" |}],
      {| issue_number := 12%Z; state := "OPEN" |}.
    split; [reflexivity|]. split; [apply list_elem_of_here|reflexivity].
Defined.

(** Steps a run of a human author's pull request, with a successful listing
    and no open linked issue, up to the decision on the reminder. *)
Ltac linkbot_to_decision st Hhuman Hlist Hg Hclosed st3 Ht3 Hr3 :=
  let st1 := fresh "st1" in
  let Ht1 := fresh "Ht1" in
  let Hr1 := fresh "Hr1" in
  destruct (linkbot_enter _ _ _ st _ _ Hhuman) as (st1 & Ht1 & Hr1 & ->);
  unfold try_catch, linkbot_after_author; cbv zeta;
  rewrite bind_run, checkAlreadyCommented_run, Hlist; rewrite bind_run;
  match goal with
  | |- context [LinkBot.getLinkedOpenIssues ?gh ?o ?r ?n ?s] =>
      destruct (getLinkedOpenIssues_answer gh o r n s)
        as (st3 & -> & Ht3 & Hr3 & _)
  end;
  cbn [threads requests with_requests] in Ht3, Hr3;
  rewrite Hg; cbn [linked_open];
  rewrite (no_open_issue _ Hclosed); cbn [length Nat.eqb];
  unfold LinkBot.alreadyCommentedMissingIssue;
  match goal with
  | |- context [comments_of st1 ?o ?r ?n] =>
      replace (comments_of st1 o r n) with (comments_of st o r n)
        by (unfold comments_of; by rewrite Ht1)
  end;
  rewrite Hr1 in Hr3; rewrite <- !app_assoc in Hr3; cbn [app] in Hr3;
  rewrite Ht1 in Ht3.

(** X17.  LinkBot posts its reminder when the listing succeeds, no comment
    of the first page carries its marker, the query answers no issue in
    state [OPEN] (closed ones do not count), [DRY_RUN] is not exactly
    [true], and the service accepts the comment.  The thread then ends with
    the reminder, which greets the author's login, or [there] when the
    login is missing; the requests are the listing, the query and one
    creation, in this order. *)
Theorem linkbot_posts_reminder (gh : GitHub) (context : Context)
    (env : gmap string string) (st : State) (n : Z) (pr : PullRequest)
    (nodes : option (list Issue)) :
  let o := owner (context_repo context) in
  let r := repo (context_repo context) in
  let b := LinkBot.commentBody (linkbot_author pr) o r in
  linkbot_human gh context env n pr →
  list_error gh n 0 = None →
  existsb (has_marker LinkBot.LINKBOT_MISSING_ISSUE_MARKER)
    (take (default_per_page gh) (comments_of st o r n)) = false →
  graphql gh n = Normal (Nodes nodes) →
  (∀ issue, issue ∈ default [] nodes → state issue ≠ "OPEN") →
  env !! "DRY_RUN" ≠ Some "true" →
  create_error gh n b = None →
  ∃ st',
    LinkBot.main gh context env st = (Normal (), st') ∧
    comments_of st' o r n = comments_of st o r n ++ [{| body := Some b |}] ∧
    sent_since st st' =
      linkbot_fetch context n
      ++ [ListComments o r n None 0; Graphql o r n; CreateComment o r n b] ∧
    JS.startsWith b
      (LinkBot.LINKBOT_MISSING_ISSUE_MARKER +:+ "Hi @" +:+ linkbot_author pr
       +:+ ", this is **LinkBot**") = true.
Proof.
  cbv zeta. intros Hhuman Hlist Hfresh Hg Hclosed Hdry Hcreate.
  linkbot_to_decision st Hhuman Hlist Hg Hclosed st3 Ht3 Hr3.
  rewrite Hfresh. rewrite bool_decide_eq_false_2 by done.
  fold (linkbot_author pr).
  set (b := LinkBot.commentBody (linkbot_author pr) _ _) in *.
  rewrite bind_run. unfold createComment. rewrite Hcreate.
  rewrite console_log_run. eexists. split; [reflexivity|]. split; [|split].
  - unfold comments_of. cbn [threads with_line].
    rewrite lookup_insert_eq. unfold default. cbn [from_option id].
    by rewrite Ht3.
  - apply sent_since_with_requests. cbn [requests with_line send].
    rewrite Hr3. by rewrite <- !app_assoc.
  - unfold b, LinkBot.commentBody. cbn [JS.join].
    change ", this is **LinkBot** 👋"
      with (", this is **LinkBot**" +:+ " 👋").
    rewrite !app_assoc_str. at_piece.
Qed.

Lemma linkbot_posts_reminder_witness :
  let b := LinkBot.commentBody "alice" "hiero" "sdk" in
  ∃ st',
    LinkBot.main quiet_service sample_context ∅ (state_with (chatter 3))
    = (Normal (), st') ∧
    comments_of st' "hiero" "sdk" 7%Z
    = comments_of (state_with (chatter 3)) "hiero" "sdk" 7%Z
      ++ [{| body := Some b |}] ∧
    sent_since (state_with (chatter 3)) st' =
      linkbot_fetch sample_context 7%Z
      ++ [ListComments "hiero" "sdk" 7%Z None 0; Graphql "hiero" "sdk" 7%Z;
          CreateComment "hiero" "sdk" 7%Z b] ∧
    JS.startsWith b
      (LinkBot.LINKBOT_MISSING_ISSUE_MARKER +:+ "Hi @" +:+ "alice"
       +:+ ", this is **LinkBot**") = true.
Proof.
  cbv zeta.
  apply (linkbot_posts_reminder quiet_service sample_context ∅
           (state_with (chatter 3)) 7%Z (pr_by "User" "alice") (Some [])).
  - split; [reflexivity|]. split; [lia|]. split; reflexivity.
  - reflexivity.
  - vm_compute. reflexivity.
  - reflexivity.
  - intros issue Hin. by apply elem_of_nil in Hin.
  - discriminate.
  - reflexivity.
Defined.

(** X18.  LinkBot's dry run is strict: only when [DRY_RUN] is exactly
    [true] does the run that would have posted the reminder write it to the
    console instead, between two [---] lines, and send no creation
    request. *)
Theorem linkbot_dry_run_prints_reminder (gh : GitHub) (context : Context)
    (env : gmap string string) (st : State) (n : Z) (pr : PullRequest)
    (nodes : option (list Issue)) :
  let o := owner (context_repo context) in
  let r := repo (context_repo context) in
  let b := LinkBot.commentBody (linkbot_author pr) o r in
  linkbot_human gh context env n pr →
  list_error gh n 0 = None →
  existsb (has_marker LinkBot.LINKBOT_MISSING_ISSUE_MARKER)
    (take (default_per_page gh) (comments_of st o r n)) = false →
  graphql gh n = Normal (Nodes nodes) →
  (∀ issue, issue ∈ default [] nodes → state issue ≠ "OPEN") →
  env !! "DRY_RUN" = Some "true" →
  ∃ st' earlier,
    LinkBot.main gh context env st = (Normal (), st') ∧
    threads st' = threads st ∧
    sent_since st st' =
      linkbot_fetch context n ++ [ListComments o r n None 0; Graphql o r n] ∧
    console st' =
      earlier
      ++ ((λ l, {| channel := Out; line := l; detail := [] |})
            <$> ["DRY RUN: Would post the following comment:"; "---"; b;
                 "---"]).
Proof.
  cbv zeta. intros Hhuman Hlist Hfresh Hg Hclosed Hdry.
  linkbot_to_decision st Hhuman Hlist Hg Hclosed st3 Ht3 Hr3.
  rewrite Hfresh. rewrite bool_decide_eq_true_2 by done.
  fold (linkbot_author pr).
  set (b := LinkBot.commentBody (linkbot_author pr) _ _) in *.
  rewrite !bind_run, !console_log_run.
  exists (with_line
            (with_line
               (with_line
                  (with_line st3
                     {| channel := Out;
                        line := "DRY RUN: Would post the following comment:";
                        detail := [] |})
                  {| channel := Out; line := "---"; detail := [] |})
               {| channel := Out; line := b; detail := [] |})
            {| channel := Out; line := "---"; detail := [] |}),
    (console st3).
  split; [reflexivity|]. split; [done|]. split.
  - by apply sent_since_with_requests.
  - cbn [console with_line fmap list_fmap]. by rewrite <- !app_assoc.
Qed.

Lemma linkbot_dry_run_prints_reminder_witness :
  let b := LinkBot.commentBody "alice" "hiero" "sdk" in
  ∃ st' earlier,
    LinkBot.main quiet_service sample_context {[ "DRY_RUN" := "true" ]}
      (state_with (chatter 3)) = (Normal (), st') ∧
    threads st' = threads (state_with (chatter 3)) ∧
    sent_since (state_with (chatter 3)) st' =
      linkbot_fetch sample_context 7%Z
      ++ [ListComments "hiero" "sdk" 7%Z None 0; Graphql "hiero" "sdk" 7%Z] ∧
    console st' =
      earlier
      ++ ((λ l, {| channel := Out; line := l; detail := [] |})
            <$> ["DRY RUN: Would post the following comment:"; "---"; b;
                 "---"]).
Proof.
  cbv zeta.
  apply (linkbot_dry_run_prints_reminder quiet_service sample_context
           {[ "DRY_RUN" := "true" ]} (state_with (chatter 3)) 7%Z
           (pr_by "User" "alice") (Some [])).
  - split; [reflexivity|]. split; [lia|]. split; reflexivity.
  - reflexivity.
  - vm_compute. reflexivity.
  - reflexivity.
  - intros issue Hin. by apply elem_of_nil in Hin.
  - reflexivity.
Defined.

(** X19.  LinkBot has no permission fallback: when the service rejects the
    reminder, whatever the status, the error is thrown to the caller after
    the creation request was sent, and the thread is unchanged. *)
Theorem linkbot_creation_failure_is_thrown (gh : GitHub) (context : Context)
    (env : gmap string string) (st : State) (n : Z) (pr : PullRequest)
    (nodes : option (list Issue)) (e : Error) :
  let o := owner (context_repo context) in
  let r := repo (context_repo context) in
  let b := LinkBot.commentBody (linkbot_author pr) o r in
  linkbot_human gh context env n pr →
  list_error gh n 0 = None →
  existsb (has_marker LinkBot.LINKBOT_MISSING_ISSUE_MARKER)
    (take (default_per_page gh) (comments_of st o r n)) = false →
  graphql gh n = Normal (Nodes nodes) →
  (∀ issue, issue ∈ default [] nodes → state issue ≠ "OPEN") →
  env !! "DRY_RUN" ≠ Some "true" →
  create_error gh n b = Some e →
  ∃ st',
    LinkBot.main gh context env st = (Thrown e, st') ∧
    threads st' = threads st ∧
    sent_since st st' =
      linkbot_fetch context n
      ++ [ListComments o r n None 0; Graphql o r n; CreateComment o r n b].
Proof.
  cbv zeta. intros Hhuman Hlist Hfresh Hg Hclosed Hdry Hcreate.
  linkbot_to_decision st Hhuman Hlist Hg Hclosed st3 Ht3 Hr3.
  rewrite Hfresh. rewrite bool_decide_eq_false_2 by done.
  fold (linkbot_author pr).
  set (b := LinkBot.commentBody (linkbot_author pr) _ _) in *.
  rewrite bind_run. unfold createComment. rewrite Hcreate.
  match goal with
  | |- context [LinkBot.on_error context (Some n) e ?s] =>
      destruct (@on_error_run unit context (Some n) e s)
        as (st' & -> & Ht & Hr)
  end.
  exists st'. split; [done|]. split.
  - rewrite Ht. cbn [threads send]. done.
  - apply sent_since_with_requests. rewrite Hr. cbn [requests send].
    rewrite Hr3. by rewrite <- !app_assoc.
Qed.

Lemma linkbot_creation_failure_is_thrown_witness :
  let b := LinkBot.commentBody "alice" "hiero" "sdk" in
  ∃ st',
    LinkBot.main (creation_rejected not_found) sample_context ∅
      (state_with []) = (Thrown not_found, st') ∧
    threads st' = threads (state_with []) ∧
    sent_since (state_with []) st' =
      linkbot_fetch sample_context 7%Z
      ++ [ListComments "hiero" "sdk" 7%Z None 0; Graphql "hiero" "sdk" 7%Z;
          CreateComment "hiero" "sdk" 7%Z b].
Proof.
  cbv zeta.
  apply (linkbot_creation_failure_is_thrown (creation_rejected not_found)
           sample_context ∅ (state_with []) 7%Z (pr_by "User" "alice")
           (Some []) not_found).
  - split; [reflexivity|]. split; [lia|]. split; reflexivity.
  - reflexivity.
  - reflexivity.
  - reflexivity.
  - intros issue Hin. by apply elem_of_nil in Hin.
  - discriminate.
  - reflexivity.
Defined.

(** X20.  LinkBot reminds once per first page: when a comment of the first
    page of the listing already carries the marker and no open issue is
    linked, the run returns normally after the listing and the query, and
    sends no creation request. *)
Theorem linkbot_reminder_seen_posts_nothing (gh : GitHub) (context : Context)
    (env : gmap string string) (st : State) (n : Z) (pr : PullRequest)
    (nodes : option (list Issue)) :
  let o := owner (context_repo context) in
  let r := repo (context_repo context) in
  linkbot_human gh context env n pr →
  list_error gh n 0 = None →
  existsb (has_marker LinkBot.LINKBOT_MISSING_ISSUE_MARKER)
    (take (default_per_page gh) (comments_of st o r n)) = true →
  graphql gh n = Normal (Nodes nodes) →
  (∀ issue, issue ∈ default [] nodes → state issue ≠ "OPEN") →
  ∃ st',
    LinkBot.main gh context env st = (Normal (), st') ∧
    threads st' = threads st ∧
    sent_since st st' =
      linkbot_fetch context n ++ [ListComments o r n None 0; Graphql o r n].
Proof.
  cbv zeta. intros Hhuman Hlist Hseen Hg Hclosed.
  linkbot_to_decision st Hhuman Hlist Hg Hclosed st3 Ht3 Hr3.
  rewrite Hseen, console_log_run.
  eexists. split; [reflexivity|]. split; [done|].
  by apply sent_since_with_requests.
Qed.

Lemma linkbot_reminder_seen_posts_nothing_witness :
  let thread :=
    chatter 3
    ++ [{| body := Some (LinkBot.commentBody "alice" "hiero" "sdk") |}] in
  ∃ st',
    LinkBot.main quiet_service sample_context ∅ (state_with thread)
    = (Normal (), st') ∧
    threads st' = threads (state_with thread) ∧
    sent_since (state_with thread) st' =
      linkbot_fetch sample_context 7%Z
      ++ [ListComments "hiero" "sdk" 7%Z None 0; Graphql "hiero" "sdk" 7%Z].
Proof.
  cbv zeta.
  apply (linkbot_reminder_seen_posts_nothing quiet_service sample_context ∅
           (state_with
              (chatter 3
               ++ [{| body :=
                        Some (LinkBot.commentBody "alice" "hiero" "sdk") |}]))
           7%Z (pr_by "User" "alice") (Some [])).
  - split; [reflexivity|]. split; [lia|]. split; reflexivity.
  - reflexivity.
  - vm_compute. reflexivity.
  - reflexivity.
  - intros issue Hin. by apply elem_of_nil in Hin.
Defined.

(** X21.  On a manual run the payload holds no pull request, and LinkBot
    asks the service for it.  When that request fails, the error is thrown
    to the caller: the run sent this one request and changed no thread. *)
Theorem linkbot_pulls_get_failure_is_thrown (gh : GitHub) (context : Context)
    (env : gmap string string) (st : State) (n : Z) (p : Payload)
    (e : Error) :
  linkbot_pr_number context env = Some n → n ≠ 0%Z →
  payload context = Some p → pull_request p = None →
  pulls_get gh n = Thrown e →
  ∃ st',
    LinkBot.main gh context env st = (Thrown e, st') ∧
    threads st' = threads st ∧
    sent_since st st' =
      [PullsGet (owner (context_repo context)) (repo (context_repo context))
         n].
Proof.
  intros Hpn Hn0 Hp Hpr Hget.
  assert (JS.num_truthy (Some n) = true) as Htruthy.
  { cbn. by destruct (Z.eqb_spec n 0). }
  assert (try_catch (LinkBot.resolvePrNumber context env)
            (LinkBot.on_error context None) st = (Normal (Some n), st))
    as Hresolve.
  { unfold linkbot_pr_number, payload_number in Hpn. cbv zeta in Hpn.
    unfold LinkBot.resolvePrNumber, try_catch.
    destruct (JS.num_truthy (JS.Number (env !! "PR_NUMBER")));
      [by rewrite Hpn|].
    rewrite Hp in *. cbn in *. by rewrite Hpr in *. }
  unfold LinkBot.main. rewrite bind_run, Hresolve.
  unfold try_catch.
  unfold LinkBot.process. rewrite Htruthy. cbn [negb].
  change (default 0%Z (Some n)) with n. cbv zeta.
  rewrite bind_run, console_log_run, bind_run.
  rewrite Hp, Hpr. unfold pullsGet. rewrite Hget.
  match goal with
  | |- context [LinkBot.on_error context (Some n) e ?s] =>
      destruct (@on_error_run unit context (Some n) e s)
        as (st' & -> & Ht & Hr)
  end.
  exists st'. split; [done|]. split; [by rewrite Ht|].
  apply sent_since_with_requests. by rewrite Hr.
Qed.

Lemma linkbot_pulls_get_failure_is_thrown_witness :
  ∃ st',
    LinkBot.main quiet_service (context_of None) {[ "PR_NUMBER" := "7" ]}
      (state_with []) = (Thrown not_found, st') ∧
    threads st' = threads (state_with []) ∧
    sent_since (state_with []) st' = [PullsGet "hiero" "sdk" 7%Z].
Proof.
  apply (linkbot_pulls_get_failure_is_thrown quiet_service (context_of None)
           {[ "PR_NUMBER" := "7" ]} (state_with []) 7%Z
           {| pull_request := None |} not_found).
  - vm_compute. reflexivity.
  - lia.
  - reflexivity.
  - reflexivity.
  - reflexivity.
Defined.
